(** * make_youtube_short.py: crop-box geometry and timeline assembly

    A shallow embedding of [create_youtube_short] from
    [video/make_youtube_short.py].

    Numbers.  Python [int] values (frame sizes, aspect-ratio components,
    pixel offsets) are [Z].  Python [float] values (times, durations, focal
    ratios, the results of true division [/]) are exact rationals [Q]: the
    embedding idealises IEEE rounding away, [int(x)] is truncation towards
    zero, and true division by zero raises [ZeroDivisionError].  Binary64
    rounding can carry a value across a whole number before [int] truncates
    it, so a pixel the script computes may differ by one from the rational
    one.  The results below that locate a pixel from a focal ratio or a
    scale factor therefore allow for a pixel or leave the value open; the
    others (bounds, monotonicity, positions fixed by an edge of the frame,
    quotients of whole numbers) do not depend on which way a value rounds.

    Collaborators.  The moviepy clip operations the script calls
    ([subclip], [speedx], [crop], [resize], [concatenate_videoclips],
    [ImageClip], [fadein], [fadeout]) are recorded as the constructors of a
    term type [Clip]; the two observations the script makes of a clip,
    [.size] and [.duration], are functions on those terms.  [subclip] is
    the one call that can fail on the times it is given: it raises unless
    they lie inside the clip.  Console output, file writes and [close()]
    calls are events of a trace; a printed message is recorded by the fixed
    part of its text, without the values interpolated into it. *)

From Stdlib Require Import ZArith QArith Qround Lqa Lia List String Bool.
Import ListNotations.
Open Scope Z_scope.
Set Warnings "-register-all".

(** ** Exceptions and fallible computations *)

Inductive exn : Type :=
| TypeError
| IndexError
| ZeroDivisionError
| ServiceError.
    (* the failure of the video service on times outside a clip *)

Inductive result (A : Type) : Type :=
| Ok (a : A)
| Raise (e : exn).
Arguments Ok {A} a.
Arguments Raise {A} e.

Definition rbind {A B : Type} (m : result A) (k : A -> result B) : result B :=
  match m with
  | Ok a => k a
  | Raise e => Raise e
  end.

Notation "x <- m ;; k" := (rbind m (fun x => k))
  (at level 61, m at next level, right associativity).

(** ** Python numerics *)

Module Py.

(** [int(x)] on a float: truncation towards zero. *)
Definition int (x : Q) : Z := Z.quot (Qnum x) (Zpos (Qden x)).

(** [a / b] on two ints: true division. *)
Definition truediv (a b : Z) : result Q :=
  if b =? 0 then Raise ZeroDivisionError else Ok (inject_Z a / inject_Z b)%Q.

(** [x >= y] and [x > y] and [x <= y] on floats. *)
Definition ge (x y : Q) : bool := Qle_bool y x.
Definition gt (x y : Q) : bool := negb (Qle_bool x y).
Definition le (x y : Q) : bool := Qle_bool x y.

End Py.

(** ** Crop-box geometry (lines 75-97, repeated at lines 186-222) *)

Record CropBox : Type := mkCropBox {
  box_x1 : Z;
  box_y1 : Z;
  box_width : Z;
  box_height : Z
}.

(** Lines 78-83 (and 192-199): the target width and height. *)
Definition crop_dims (size target_aspect_ratio : Z * Z) : result (Z * Z) :=
  let '(original_width, original_height) := size in
  let '(target_short_width_ratio, target_short_height_ratio) :=
    target_aspect_ratio in
  q <- Py.truediv (original_height * target_short_width_ratio)
                  target_short_height_ratio ;;
  let calculated_target_width := Py.int q in
  let calculated_target_height := original_height in
  if calculated_target_width >? original_width then
    q' <- Py.truediv (original_width * target_short_height_ratio)
                     target_short_width_ratio ;;
    Ok (original_width, Py.int q')
  else Ok (calculated_target_width, calculated_target_height).

(** Lines 88-97 (and 207-222) along one axis: the corner is placed half a
    box before the focal pixel, then clamped. *)
Definition crop_corner (original_extent target_extent : Z) (focal_pixel : Q)
  : Z :=
  let x1 := Py.int (focal_pixel - inject_Z target_extent / 2)%Q in
  let x1 := Z.max 0 x1 in
  let x1 := if x1 + target_extent >? original_extent
            then original_extent - target_extent else x1 in
  Z.max 0 x1.

(** Lines 85-97 (and 203-222). *)
Definition crop_origin (size dims : Z * Z) (focal_point : Q * Q) : Z * Z :=
  let '(original_width, original_height) := size in
  let '(calculated_target_width, calculated_target_height) := dims in
  let focal_x_pixel := (inject_Z original_width * fst focal_point)%Q in
  let focal_y_pixel := (inject_Z original_height * snd focal_point)%Q in
  (crop_corner original_width calculated_target_width focal_x_pixel,
   crop_corner original_height calculated_target_height focal_y_pixel).

Definition crop_box (size target_aspect_ratio : Z * Z) (focal_point : Q * Q)
  : result CropBox :=
  dims <- crop_dims size target_aspect_ratio ;;
  let '(x1, y1) := crop_origin size dims focal_point in
  Ok (mkCropBox x1 y1 (fst dims) (snd dims)).

(** The centre focal point [(0.5, 0.5)]. *)
Definition center : Q * Q := (1 # 2, 1 # 2)%Q.

(** ** Clips

    A clip is the term of moviepy calls that built it. *)

Record VideoInfo : Type := mkVideoInfo {
  v_size : Z * Z;
  v_duration : Q;
  v_fps : Q
}.

Inductive Clip : Type :=
| VideoFileClip (path : string) (info : VideoInfo)
    (* [VideoFileClip(path)] *)
| ImageClip (path : string) (image_size : Z * Z) (d : Q)
    (* [ImageClip(path).set_duration(d)] *)
| Subclip (c : Clip) (t_start t_end : Q)
| Speedx (c : Clip) (factor : Q)
| Crop (c : Clip) (box : CropBox)
| Resize (c : Clip) (newsize : Z * Z)
| FadeIn (c : Clip) (d : Q)
| FadeOut (c : Clip) (d : Q)
| Concatenate (clips : list Clip).

Definition Qsum (l : list Q) : Q := fold_right Qplus 0%Q l.

(** [clip.size]: a crop yields its box, a resize the new size, a
    concatenation the frame of its first clip; time effects keep the size. *)
Fixpoint size (c : Clip) : Z * Z :=
  match c with
  | VideoFileClip _ info => v_size info
  | ImageClip _ image_size _ => image_size
  | Subclip c _ _ | Speedx c _ | FadeIn c _ | FadeOut c _ => size c
  | Crop _ box => (box_width box, box_height box)
  | Resize _ newsize => newsize
  | Concatenate clips =>
      match clips with
      | [] => (0, 0)
      | c :: _ => size c
      end
  end.

(** [clip.duration]: [subclip(a, b)] lasts [b - a], [speedx] divides by the
    factor, a concatenation lasts the sum of its parts. *)
Fixpoint duration (c : Clip) : Q :=
  match c with
  | VideoFileClip _ info => v_duration info
  | ImageClip _ _ d => d
  | Subclip _ t_start t_end => (t_end - t_start)%Q
  | Speedx c factor => (duration c / factor)%Q
  | Crop c _ | Resize c _ | FadeIn c _ | FadeOut c _ => duration c
  | Concatenate clips => Qsum (map duration clips)
  end.

(** [clip.fps], read on the source clip only. *)
Definition fps (c : Clip) : Q :=
  match c with
  | VideoFileClip _ info => v_fps info
  | _ => 0%Q
  end.

(** [clip.fx(vfx.speedx, factor)] divides the duration by [factor]. *)
Definition speedx (c : Clip) (factor : Q) : result Clip :=
  if Qeq_bool factor 0 then Raise ZeroDivisionError else Ok (Speedx c factor).

(** A segment [(start, end)] lies within clip [c]:
    [0 <= start < end <= c.duration]. *)
Definition within_clip (c : Clip) (segment : Q * Q) : Prop :=
  (0 <= fst segment)%Q /\ (fst segment < snd segment)%Q /\
  (snd segment <= duration c)%Q.

(** Modelled from the spec: [clip.subclip(t_start, t_end)] of the video
    service, whose code is not part of the repository.  Section 3 of the
    spec gives a segment the invariant [0 <= start < end <= duration] and
    leaves values outside it to the video service's own failure; the
    script does not catch that failure (lines 64 and 115). *)
Definition subclip (c : Clip) (t_start t_end : Q) : result Clip :=
  if Py.le 0 t_start && Py.gt t_end t_start && Py.le t_end (duration c)
  then Ok (Subclip c t_start t_end)
  else Raise ServiceError.

Definition size_eqb (a b : Z * Z) : bool :=
  (fst a =? fst b) && (snd a =? snd b).

(** ** The outside world, events, and the function's arguments *)

Record World : Type := mkWorld {
  video_file : string -> option VideoInfo;
    (* [VideoFileClip(path)]: [None] when loading raises *)
  path_exists : string -> bool;
    (* [os.path.exists] *)
  image_file_size : string -> Z * Z;
    (* [Image.open(path).size] *)
  exif_orientation : string -> option Z;
    (* the EXIF orientation value, [None] when absent or unreadable *)
  write_succeeds : string -> bool
    (* whether [write_videofile] to that path completes *)
}.

Inductive event : Type :=
| Stdout (text : string)
    (* [print(text)] *)
| SaveImage (path : string)
    (* [img.save(path)] *)
| Wrote (path : string) (c : Clip) (fps : Q)
    (* [c.write_videofile(path, fps=fps)] ran to completion *)
| Close (c : Clip).
    (* [c.close()] *)

(** The parameters of [create_youtube_short]; [max_duration_sec], an [int]
    that is compared with durations, is taken among the rationals. *)

Record Args : Type := mkArgs {
  input_video_path : string;
  output_video_path : string;
  clips_of_interest : option (list (Q * Q));
  speed_multiplier : Q;
  target_aspect_ratio : Z * Z;
  max_duration_sec : Q;
  focal_points : option (list (Q * Q));
  output_resolution : Z * Z;
  image_path : option string
}.

(** ** Computations that print, act on the world, and may raise *)

Definition M (A : Type) : Type := list event * result A.

Definition ret {A : Type} (a : A) : M A := ([], Ok a).

Definition bind {A B : Type} (m : M A) (k : A -> M B) : M B :=
  match m with
  | (t, Ok a) => let '(t', r) := k a in (t ++ t', r)
  | (t, Raise e) => (t, Raise e)
  end.

Definition emit (e : event) : M unit := ([e], Ok tt).
Definition print (text : string) : M unit := emit (Stdout text).
Definition lift {A : Type} (r : result A) : M A := ([], r).

Notation "x <-- m ;; k" := (bind m (fun x => k))
  (at level 61, m at next level, right associativity).
Notation "m ;;; k" := (bind m (fun _ => k))
  (at level 61, right associativity).

Definition trace {A : Type} (m : M A) : list event := fst m.
Definition outcome {A : Type} (m : M A) : result A := snd m.

(** ** The segment loop (lines 58-122) *)

(** Lines 69-72. *)
Definition segment_focal_point (focal_points : option (list (Q * Q)))
  (idx : nat) : Q * Q :=
  match focal_points with
  | None | Some [] => center
  | Some fps =>
      if (idx <? List.length fps)%nat then nth idx fps center else center
  end.

(** Lines 63-110: extract, speed up, crop around the focal point, resize. *)
Definition prepare_segment (a : Args) (original_clip : Clip) (idx : nat)
  (segment : Q * Q) : M Clip :=
  let '(start_sec, end_sec) := segment in
  print "[INFO] Processing segment" ;;;
  sub_clip <-- lift (subclip original_clip start_sec end_sec) ;;
  sped_up_clip <-- lift (speedx sub_clip (speed_multiplier a)) ;;
  print "[DEBUG] Segment duration after speed" ;;;
  let focal_point := segment_focal_point (focal_points a) idx in
  print "[DEBUG] Using focal point" ;;;
  box <-- lift (crop_box (size sped_up_clip) (target_aspect_ratio a)
                         focal_point) ;;
  print "[DEBUG] Cropping" ;;;
  let cropped_clip := Crop sped_up_clip box in
  if negb (size_eqb (size cropped_clip) (output_resolution a)) then
    print "[DEBUG] Resizing" ;;;
    ret (Resize cropped_clip (output_resolution a))
  else ret cropped_clip.

(** The loop state is [(final_clips, current_duration)]; [idx] is the
    counter of [enumerate]. *)
Fixpoint segment_loop (a : Args) (original_clip : Clip) (idx : nat)
  (segments : list (Q * Q)) (st : list Clip * Q) : M (list Clip * Q) :=
  match segments with
  | [] => ret st
  | segment :: rest =>
      let '(final_clips, current_duration) := st in
      if Py.ge current_duration (max_duration_sec a) then
        print "[WARN] Max duration reached, skipping remaining clips." ;;;
        ret st                                                  (* break *)
      else
        cropped_clip <-- prepare_segment a original_clip idx segment ;;
        if Py.gt (current_duration + duration cropped_clip)%Q
                 (max_duration_sec a) then
          let trim_duration := (max_duration_sec a - current_duration)%Q in
          print "[WARN] Trimming last segment to fit max duration" ;;;
          cropped_clip <-- lift (subclip cropped_clip 0 trim_duration) ;;
          if Py.le (duration cropped_clip) 0 then
            print "[WARN] Skipping segment, duration after trim is zero." ;;;
            segment_loop a original_clip (S idx) rest st     (* continue *)
          else
            print "[INFO] Added segment" ;;;
            segment_loop a original_clip (S idx) rest
              (final_clips ++ [cropped_clip],
               (current_duration + duration cropped_clip)%Q)
        else
          print "[INFO] Added segment" ;;;
          segment_loop a original_clip (S idx) rest
            (final_clips ++ [cropped_clip],
             (current_duration + duration cropped_clip)%Q)
  end.

(** [sped_up_clip.duration] of a segment (line 66). *)
Definition sped_up_duration (a : Args) (original_clip : Clip)
  (segment : Q * Q) : Q :=
  duration (Speedx (Subclip original_clip (fst segment) (snd segment))
              (speed_multiplier a)).

(** [c] is the clip lines 63-110 make of segment number [idx]. *)
Definition prepared (a : Args) (original_clip : Clip) (idx : nat)
  (segment : Q * Q) (c : Clip) : Prop :=
  outcome (prepare_segment a original_clip idx segment) = Ok c.

(** [full] holds, in order, the clips made of the first [k] of the
    [segments], which are numbered from [idx]. *)
Definition prepared_prefix (a : Args) (original_clip : Clip) (idx k : nat)
  (segments : list (Q * Q)) (full : list Clip) : Prop :=
  Forall2 (fun numbered c =>
             prepared a original_clip (fst numbered) (snd numbered) c)
          (combine (seq idx k) (firstn k segments)) full.

(** ** The image slides (lines 125-176, and [auto_orient_image]) *)

(** [auto_orient_image(path).size]: rotating by 180 keeps the size, rotating
    by 270 or 90 with [expand=True] swaps its components. *)
Definition auto_orient_image (w : World) (path : string) : Z * Z :=
  let '(img_w, img_h) := image_file_size w path in
  match exif_orientation w path with
  | Some 3 => (img_w, img_h)
  | Some 6 => (img_h, img_w)
  | Some 8 => (img_h, img_w)
  | _ => (img_w, img_h)
  end.

Definition temp_oriented_image : string := "temp_oriented_image.jpg".
Definition num_parts : Z := 4.
Definition duration_per_part : Q := 3 # 2.
Definition fade_duration : Q := 1 # 5.

(** Lines 133-140. *)
Definition scaled_size (img_size output_resolution : Z * Z)
  : result (Z * Z) :=
  let '(img_w, img_h) := img_size in
  let '(out_w, out_h) := output_resolution in
  if img_w >? img_h then
    scale_factor <- Py.truediv out_h img_h ;;
    Ok (Py.int (inject_Z img_w * scale_factor)%Q, out_h)
  else
    scale_factor <- Py.truediv out_w img_w ;;
    Ok (out_w, Py.int (inject_Z img_h * scale_factor)%Q).

(** Lines 155-157 and 164-166: the pan offset of part [i]. *)
Definition pan_offset (num_parts i max_offset : Z) : Z :=
  if num_parts =? 1 then max_offset / 2
  else Py.int (inject_Z (i * max_offset) / inject_Z (num_parts - 1))%Q.

(** Lines 151-166: the [(x_crop, y_crop)] of part [i]. *)
Definition part_crop (img_size new_size output_resolution : Z * Z)
  (num_parts i : Z) : Z * Z :=
  let '(img_w, img_h) := img_size in
  let '(new_w, new_h) := new_size in
  let '(out_w, out_h) := output_resolution in
  if img_w >? img_h then
    let max_offset := new_w - out_w in
    (pan_offset num_parts i max_offset, 0)
  else
    let max_offset := new_h - out_h in
    (0, pan_offset num_parts i max_offset).

(** Lines 147-148 and 169-170: the slide cropped at [(x_crop, y_crop)]. *)
Definition slide_at (img_size new_size output_resolution : Z * Z)
  (x_crop y_crop : Z) : Clip :=
  let image_clip := ImageClip temp_oriented_image img_size duration_per_part in
  let image_clip := Resize image_clip new_size in
  let '(out_w, out_h) := output_resolution in
  let image_clip := Crop image_clip (mkCropBox x_crop y_crop out_w out_h) in
  FadeOut (FadeIn image_clip fade_duration) fade_duration.

(** Lines 147-170: one pass of the slide loop. *)
Definition image_part (img_size new_size output_resolution : Z * Z)
  (num_parts i : Z) : Clip :=
  let '(x_crop, y_crop) :=
    part_crop img_size new_size output_resolution num_parts i in
  slide_at img_size new_size output_resolution x_crop y_crop.

(** Lines 146-172: [for i in range(num_parts)], [i] counting up from
    [num_parts - todo]. *)
Fixpoint image_parts (img_size new_size output_resolution : Z * Z)
  (num_parts : Z) (i : Z) (todo : nat) (final_clips : list Clip)
  : M (list Clip) :=
  match todo with
  | O => ret final_clips
  | S todo' =>
      let image_clip :=
        image_part img_size new_size output_resolution num_parts i in
      print "[DEBUG] Image part" ;;;
      image_parts img_size new_size output_resolution num_parts (i + 1) todo'
        (final_clips ++ [image_clip])
  end.

(** Python truthiness of [image_path]. *)
Definition nonempty_path (image_path : option string) : option string :=
  match image_path with
  | Some EmptyString => None
  | other => other
  end.

(** Lines 125-176. *)
Definition image_stage (w : World) (a : Args) (final_clips : list Clip)
  : M (list Clip) :=
  match nonempty_path (image_path a) with
  | Some path =>
      if path_exists w path then
        print "[INFO] Adding multiple image fades" ;;;
        let img_size := auto_orient_image w path in
        emit (SaveImage temp_oriented_image) ;;;
        new_size <-- lift (scaled_size img_size (output_resolution a)) ;;
        final_clips <-- image_parts img_size new_size (output_resolution a)
                          num_parts 0 (Z.to_nat num_parts) final_clips ;;
        print "[INFO] Added faded image parts as final clips." ;;;
        ret final_clips
      else
        print "[WARN] Image not found. Skipping image addition." ;;;
        ret final_clips
  | None => ret final_clips
  end.

(** ** Final assembly, write and release (lines 178-257) *)

(** [focal_points[0]]: subscripting [None] raises [TypeError], subscripting
    the empty list raises [IndexError]. *)
Definition first_focal_point (focal_points : option (list (Q * Q)))
  : result (Q * Q) :=
  match focal_points with
  | None => Raise TypeError
  | Some [] => Raise IndexError
  | Some (focal_point :: _) => Ok focal_point
  end.

(** Lines 233-236. *)
Definition resize_if_needed (output_resolution : Z * Z) (final_video : Clip)
  : Clip :=
  if negb (snd (size final_video) =? snd output_resolution)
     || negb (fst (size final_video) =? fst output_resolution)
  then Resize final_video output_resolution
  else final_video.

(** Lines 182-240. *)
Definition final_assembly (a : Args) (final_clips : list Clip) : M Clip :=
  print "[INFO] Concatenating clips." ;;;
  let final_video := Concatenate final_clips in
  dims <-- lift (crop_dims (size final_video) (target_aspect_ratio a)) ;;
  focal_point <-- lift (first_focal_point (focal_points a)) ;;
  let '(x1, y1) := crop_origin (size final_video) dims focal_point in
  let final_video :=
    Crop final_video (mkCropBox x1 y1 (fst dims) (snd dims)) in
  let final_video := resize_if_needed (output_resolution a) final_video in
  print "Final Short duration" ;;;
  print "Final Short resolution" ;;;
  ret final_video.

(** Lines 255-256. *)
Fixpoint close_all (clips : list Clip) : M unit :=
  match clips with
  | [] => ret tt
  | clip :: rest => emit (Close clip) ;;; close_all rest
  end.

(** Lines 243-257: [try] the write, report a failure, and in the [finally]
    clause close the source, the listed clips and the final video. *)
Definition write_and_release (w : World) (a : Args)
  (original_clip : Clip) (final_clips : list Clip) (final_video : Clip)
  : M unit :=
  (if write_succeeds w (output_video_path a) then
     emit (Wrote (output_video_path a) final_video
             (fps original_clip)) ;;;
     print "YouTube Short successfully created"
   else
     print "Error writing video file") ;;;
  emit (Close original_clip) ;;;
  close_all final_clips ;;;
  emit (Close final_video).

(** [for ... in enumerate(clips_of_interest)]: iterating [None] raises
    [TypeError]. *)
Definition iterate {A : Type} (l : option (list A)) : result (list A) :=
  match l with
  | None => Raise TypeError
  | Some l => Ok l
  end.

(** Lines 38-46. *)
Definition announce : M unit :=
  print "[INFO] Starting YouTube Short creation." ;;;
  print "[INFO] Input video" ;;;
  print "[INFO] Output video" ;;;
  print "[INFO] Output resolution" ;;;
  print "[INFO] Segments to extract" ;;;
  print "[INFO] Speed multiplier" ;;;
  print "[INFO] Max duration" ;;;
  print "[INFO] Focal points" ;;;
  print "[INFO] Image path".

(** The whole function.  Its outcome is [Ok tt] when it returns and
    [Raise e] when exception [e] escapes to the caller. *)
Definition create_youtube_short (w : World) (a : Args) : M unit :=
  announce ;;;
  match video_file w (input_video_path a) with
  | None => print "[ERROR] Error loading video"                 (* return *)
  | Some info =>
      print "[INFO] Loaded video." ;;;
      let original_clip := VideoFileClip (input_video_path a) info in
      segments <-- lift (iterate (clips_of_interest a)) ;;
      st <-- segment_loop a original_clip 0 segments ([], 0%Q) ;;
      final_clips <-- image_stage w a (fst st) ;;
      match final_clips with
      | [] => print "[ERROR] No clips were processed or added."  (* return *)
      | _ :: _ =>
          final_video <-- final_assembly a final_clips ;;
          write_and_release w a original_clip final_clips final_video
      end
  end.

(** ** The example run at the end of the file (lines 279-349) *)

(** How the example run ends: [ValueError] is the exception of line 327,
    [Uncaught e] any other exception that escapes. *)
Inductive script_result (A : Type) : Type :=
| Done (a : A)
| ValueError
| Uncaught (e : exn).
Arguments Done {A} a.
Arguments ValueError {A}.
Arguments Uncaught {A} e.

(** Lines 321-335: segments of equal length, starting where the listed
    clips start, that together leave [image_duration] seconds of the budget
    free. *)
Definition equal_segments (max_duration_sec image_duration : Z)
  (timelapse_clips : list (Z * Z)) : script_result (list (Q * Q)) :=
  let segments_count := Z.of_nat (List.length timelapse_clips) in
  let available_time := max_duration_sec - image_duration in
  if available_time <=? 0 then ValueError
  else
    match Py.truediv available_time segments_count with
    | Raise e => Uncaught e
    | Ok segment_length =>
        Done (map (fun clip =>
                     (inject_Z (fst clip),
                      (inject_Z (fst clip) + segment_length)%Q))
                  timelapse_clips)
    end.

(** The arguments of the call at lines 340-349; [output_resolution] keeps
    its default. *)
Definition script_args (input_video output_short : string)
  (equal_segments : list (Q * Q)) (focal_points : list (Q * Q))
  (image_path : string) (max_duration_sec : Z) : Args :=
  mkArgs input_video output_short (Some equal_segments) 1 (9, 16)
         (inject_Z max_duration_sec) (Some focal_points) (1080, 1920)
         (Some image_path).

(** Lines 279-349, with the values the script binds to [input_video],
    [output_short], [timelapse_clips], [focal_points], [image_path],
    [max_duration_sec] and [image_duration] as parameters. *)
Definition script (w : World) (input_video output_short : string)
  (timelapse_clips : list (Z * Z)) (focal_points : list (Q * Q))
  (image_path : string) (max_duration_sec image_duration : Z)
  : list event * script_result unit :=
  match equal_segments max_duration_sec image_duration timelapse_clips with
  | ValueError => ([], ValueError)
  | Uncaught e => ([], Uncaught e)
  | Done segments =>
      if negb (path_exists w input_video) then
        ([Stdout "Error: Input video not found. Please provide a valid path."],
         Done tt)
      else
        let '(t, r) :=
          create_youtube_short w
            (script_args input_video output_short segments focal_points
               image_path max_duration_sec) in
        (t, match r with
            | Ok _ => Done tt
            | Raise e => Uncaught e
            end)
  end.

(** Lines 284-297 and 303-316. *)
Definition timelapse_clips : list (Z * Z) :=
  [(157, 162); (192, 197); (225, 230); (245, 250); (389, 394); (470, 475);
   (662, 667); (793, 798); (1082, 1087); (1315, 1320); (1460, 1465);
   (1686, 1691)].

Definition script_focal_points : list (Q * Q) :=
  [(3 # 10, 1 # 2); (35 # 100, 1 # 2); (32 # 100, 1 # 2); (7 # 10, 1 # 2);
   (3 # 10, 1 # 2); (25 # 100, 4 # 10); (3 # 10, 1 # 2); (3 # 10, 1 # 2);
   (4 # 10, 1 # 2); (5 # 10, 1 # 2); (55 # 100, 1 # 2); (4 # 10, 1 # 2)]%Q.


(** A world in which the script's video and image exist. *)
Definition script_world : World :=
  mkWorld (fun _ => Some (mkVideoInfo (1920, 1080) 1800 30))
          (fun _ => true) (fun _ => (4000, 3000)) (fun _ => None)
          (fun _ => true).

(** ** Events that touch no clip and no video file *)

Definition console_or_save (e : event) : Prop :=
  match e with
  | Stdout _ | SaveImage _ => True
  | Wrote _ _ _ | Close _ => False
  end.

(** The exception raised by [focal_points[0]]. *)
Definition subscript_error (focal_points : option (list (Q * Q))) : exn :=
  match focal_points with
  | None => TypeError
  | Some _ => IndexError
  end.




(** ** Example inputs *)

Definition example_info : VideoInfo := mkVideoInfo (1920, 1080) 100 30.

Definition example_clip : Clip := VideoFileClip "in.mp4" example_info.

(** A world holding the video [in.mp4] and the landscape image
    [photo.jpg], where writing succeeds unless the output is [full.mp4]. *)
Definition example_world : World :=
  mkWorld (fun path => if String.eqb path "in.mp4"
                       then Some example_info else None)
          (fun path => String.eqb path "photo.jpg")
          (fun _ => (4000, 3000))
          (fun _ => None)
          (fun path => negb (String.eqb path "full.mp4")).

(** Three segments of 5 s at double speed for a budget of 4 s. *)
Definition example_args : Args :=
  mkArgs "in.mp4" "out.mp4"
         (Some [(10, 15); (20, 25); (30, 35)]%Q) 2 (9, 16) 4
         (Some [(3 # 10, 1 # 2)%Q]) (1080, 1920) None.

Definition with_image (image_path : option string) (a : Args) : Args :=
  mkArgs (input_video_path a) (output_video_path a) (clips_of_interest a)
         (speed_multiplier a) (target_aspect_ratio a) (max_duration_sec a)
         (focal_points a) (output_resolution a) image_path.

Definition with_focal_points (focal_points : option (list (Q * Q)))
  (a : Args) : Args :=
  mkArgs (input_video_path a) (output_video_path a) (clips_of_interest a)
         (speed_multiplier a) (target_aspect_ratio a) (max_duration_sec a)
         focal_points (output_resolution a) (image_path a).

Definition with_clips (clips_of_interest : option (list (Q * Q)))
  (a : Args) : Args :=
  mkArgs (input_video_path a) (output_video_path a) clips_of_interest
         (speed_multiplier a) (target_aspect_ratio a) (max_duration_sec a)
         (focal_points a) (output_resolution a) (image_path a).

Definition with_paths (input_video_path output_video_path : string)
  (a : Args) : Args :=
  mkArgs input_video_path output_video_path (clips_of_interest a)
         (speed_multiplier a) (target_aspect_ratio a) (max_duration_sec a)
         (focal_points a) (output_resolution a) (image_path a).

(** The state the segment loop reaches on the example. *)
Definition example_state : list Clip * Q :=
  Eval vm_compute in
    match outcome (segment_loop example_args example_clip 0
                     [(10, 15); (20, 25); (30, 35)]%Q ([], 0%Q)) with
    | Ok st => st
    | Raise _ => ([], 0%Q)
    end.

(** The example with the landscape image appended. *)
Definition photo_args : Args :=
  with_image (Some "photo.jpg"%string) example_args.


(** One segment and no focal points. *)
Definition no_focal_args : Args :=
  with_clips (Some [(10, 15)%Q]) (with_focal_points None example_args).

Definition no_focal_clip : Clip :=
  Resize (Crop (Speedx (Subclip example_clip 10 15) 2)
            (mkCropBox 656 0 607 1080)) (1080, 1920).

(** A world whose images are 1000 x 4000, and one whose images are stored
    as 4000 x 3000 with EXIF orientation 6. *)
Definition tall_image_world : World :=
  mkWorld (fun _ => Some example_info) (fun _ => true)
          (fun _ => (1000, 4000)) (fun _ => None) (fun _ => true).

Definition rotated_image_world : World :=
  mkWorld (fun _ => Some example_info) (fun _ => true)
          (fun _ => (4000, 3000)) (fun _ => Some 6) (fun _ => true).


(** Two segments with a focal point each, for a 1920 x 1080 output at a
    target ratio of 9:16: the final crop is narrower than the frame. *)
Definition wide_args : Args :=
  mkArgs "in.mp4" "out.mp4" (Some [(10, 15); (20, 25)]%Q) 2 (9, 16) 59
         (Some [(3 # 4, 1 # 2); (1 # 4, 1 # 2)]%Q) (1920, 1080) None.

(** The state the segment loop reaches on it. *)
Definition wide_state : list Clip * Q :=
  Eval vm_compute in
    match outcome (segment_loop wide_args example_clip 0
                     [(10, 15); (20, 25)]%Q ([], 0%Q)) with
    | Ok st => st
    | Raise _ => ([], 0%Q)
    end.


(** No time is left for segments. *)
Definition zero_budget_args : Args :=
  mkArgs "in.mp4" "out.mp4" (Some [(10, 15)%Q]) 0 (0, 0) 0 None
         (1080, 1920) None.

(** The clip made of the example's second segment. *)
Definition second_example_clip : Clip :=
  Resize (Crop (Speedx (Subclip example_clip 20 25) 2)
            (mkCropBox 656 0 607 1080)) (1080, 1920).

(** * Properties of the geometry *)

(** Halves, written for [lra]. *)
Ltac halves := unfold Qdiv in *; change (/ 2)%Q with (1 # 2)%Q in *.

Lemma int_Qeq (x y : Q) : (x == y)%Q -> Py.int x = Py.int y.
Proof.
  unfold Qeq, Py.int. destruct x as [a b], y as [c d]; simpl. intros E.
  rewrite <- (Z.quot_mul_cancel_r a (Zpos b) (Zpos d)) by lia.
  rewrite <- (Z.quot_mul_cancel_r c (Zpos d) (Zpos b)) by lia.
  rewrite E. f_equal. lia.
Qed.

Lemma int_div (a b : Z) :
  0 < b -> Py.int (inject_Z a / inject_Z b)%Q = Z.quot a b.
Proof.
  intros Hb. destruct b as [|p|p]; try lia.
  unfold Py.int, Qdiv, Qinv, Qmult, inject_Z; simpl.
  rewrite Z.mul_1_r. reflexivity.
Qed.

Lemma truediv_pos (a b : Z) :
  0 < b -> Py.truediv a b = Ok (inject_Z a / inject_Z b)%Q.
Proof.
  intros Hb. unfold Py.truediv.
  destruct (Z.eqb_spec b 0); [lia | reflexivity].
Qed.

(** The dimensions in closed form, for a positive aspect ratio. *)
Lemma crop_dims_pos (W H rw rh : Z) :
  0 < rw -> 0 < rh ->
  crop_dims (W, H) (rw, rh) =
  Ok (if Z.quot (H * rw) rh >? W
      then (W, Z.quot (W * rh) rw)
      else (Z.quot (H * rw) rh, H)).
Proof.
  intros Hw Hh. unfold crop_dims.
  rewrite (truediv_pos _ rh Hh). simpl rbind. rewrite int_div by assumption.
  destruct (Z.quot (H * rw) rh >? W); [|reflexivity].
  rewrite (truediv_pos _ rw Hw). simpl rbind. rewrite int_div by assumption.
  reflexivity.
Qed.

Lemma crop_corner_bounds (E t : Z) (f : Q) :
  0 <= t <= E ->
  0 <= crop_corner E t f /\ crop_corner E t f + t <= E.
Proof.
  intros Ht. unfold crop_corner.
  set (x := Py.int _). clearbody x.
  destruct (Z.gtb_spec (Z.max 0 x + t) E); lia.
Qed.

Lemma crop_dims_bounds (W H rw rh w h : Z) :
  0 < W -> 0 < H -> 0 < rw -> 0 < rh ->
  crop_dims (W, H) (rw, rh) = Ok (w, h) ->
  0 <= w <= W /\ 0 <= h <= H /\
  ((h = H /\ w * rh <= h * rw < (w + 1) * rh) \/
   (w = W /\ h * rw <= w * rh < (h + 1) * rw)).
Proof.
  intros HW HH Hrw Hrh. rewrite crop_dims_pos by assumption.
  assert (Q1 := Z.quot_rem' (H * rw) rh).
  assert (R1 : 0 <= Z.rem (H * rw) rh < rh) by (apply Z.rem_bound_pos; nia).
  assert (Q2 := Z.quot_rem' (W * rh) rw).
  assert (R2 : 0 <= Z.rem (W * rh) rw < rw) by (apply Z.rem_bound_pos; nia).
  destruct (Z.gtb_spec (Z.quot (H * rw) rh) W) as [G|G];
    intros [= <- <-].
  - assert (0 <= Z.quot (W * rh) rw) by (apply Z.quot_pos; nia).
    assert (Z.quot (W * rh) rw <= H) by nia.
    repeat split; lia.
  - assert (0 <= Z.quot (H * rw) rh) by (apply Z.quot_pos; nia).
    repeat split; lia.
Qed.

Lemma int_mono (x y : Q) : (x <= y)%Q -> Py.int x <= Py.int y.
Proof.
  unfold Qle, Py.int. destruct x as [a b], y as [c d]; simpl. intros L.
  rewrite <- (Z.quot_mul_cancel_r a (Zpos b) (Zpos d)) by lia.
  rewrite <- (Z.quot_mul_cancel_r c (Zpos d) (Zpos b)) by lia.
  rewrite (Z.mul_comm (Zpos d) (Zpos b)).
  apply Z.quot_le_mono; lia.
Qed.

Lemma inject_Z_nonneg (z : Z) : 0 <= z -> (0 <= inject_Z z)%Q.
Proof. intros Hz. unfold Qle; simpl. lia. Qed.

Lemma inject_Z_pos (z : Z) : 0 < z -> (0 < inject_Z z)%Q.
Proof. intros Hz. unfold Qlt; simpl. lia. Qed.

Lemma int_of_Z (z : Z) : Py.int (inject_Z z) = z.
Proof. unfold Py.int; simpl. apply Z.quot_1_r. Qed.

(** On a non-negative float [int] is the floor. *)
Lemma int_floor (x : Q) :
  (0 <= x)%Q -> (inject_Z (Py.int x) <= x < inject_Z (Py.int x) + 1)%Q.
Proof.
  intros Hx.
  assert (E : Py.int x = Qfloor x).
  { unfold Py.int, Qfloor. destruct x as [a b]; simpl.
    apply Z.quot_div_nonneg; [|lia].
    unfold Qle in Hx; simpl in Hx. lia. }
  rewrite E. split; [apply Qfloor_le|].
  assert (L := Qlt_floor x). rewrite inject_Z_plus in L. exact L.
Qed.

Lemma crop_corner_mono (E t : Z) (f f' : Q) :
  (f <= f')%Q -> crop_corner E t f <= crop_corner E t f'.
Proof.
  intros L. unfold crop_corner.
  assert (I : Py.int (f - inject_Z t / 2)%Q <= Py.int (f' - inject_Z t / 2)%Q)
    by (apply int_mono; halves; lra).
  set (x := Py.int (f - _)%Q) in *. set (x' := Py.int (f' - _)%Q) in *.
  clearbody x x'.
  destruct (Z.gtb_spec (Z.max 0 x + t) E), (Z.gtb_spec (Z.max 0 x' + t) E);
    lia.
Qed.

Lemma crop_corner_left (E t : Z) (f : Q) :
  0 <= t <= E -> (f <= 0)%Q -> crop_corner E t f = 0.
Proof.
  intros Ht Hf. unfold crop_corner.
  assert (I : Py.int (f - inject_Z t / 2)%Q <= Py.int (inject_Z 0)).
  { apply int_mono. assert (0 <= inject_Z t)%Q by (apply inject_Z_nonneg; lia).
    change (inject_Z 0) with 0%Q. halves. lra. }
  rewrite int_of_Z in I. set (x := Py.int _) in *. clearbody x.
  destruct (Z.gtb_spec (Z.max 0 x + t) E); lia.
Qed.

Lemma crop_corner_right (E t : Z) (f : Q) :
  0 <= t <= E -> (inject_Z E <= f)%Q -> crop_corner E t f = E - t.
Proof.
  intros Ht Hf. unfold crop_corner.
  assert (I : Py.int (inject_Z (E - t)) <= Py.int (f - inject_Z t / 2)%Q).
  { apply int_mono. assert (0 <= inject_Z t)%Q by (apply inject_Z_nonneg; lia).
    unfold Z.sub. rewrite inject_Z_plus, inject_Z_opp. halves. lra. }
  rewrite int_of_Z in I. set (x := Py.int (f - _)%Q) in *. clearbody x.
  destruct (Z.gtb_spec (Z.max 0 x + t) E); lia.
Qed.

Lemma crop_corner_centred (E t : Z) (f : Q) :
  0 <= t <= E ->
  (inject_Z t / 2 <= f)%Q -> (f <= inject_Z E - inject_Z t / 2)%Q ->
  (inject_Z (crop_corner E t f) <= f - inject_Z t / 2
   < inject_Z (crop_corner E t f) + 1)%Q.
Proof.
  intros Ht Hlo Hhi. unfold crop_corner.
  assert (F := int_floor (f - inject_Z t / 2)%Q ltac:(halves; lra)).
  assert (I0 : Py.int (inject_Z 0) <= Py.int (f - inject_Z t / 2)%Q)
    by (apply int_mono; change (inject_Z 0) with 0%Q; halves; lra).
  assert (I1 : Py.int (f - inject_Z t / 2)%Q <= Py.int (inject_Z (E - t))).
  { apply int_mono. unfold Z.sub. rewrite inject_Z_plus, inject_Z_opp.
    halves. lra. }
  rewrite int_of_Z in I0, I1.
  set (x := Py.int _) in *. clearbody x.
  replace (Z.max 0 x) with x by lia.
  destruct (Z.gtb_spec (x + t) E); [lia|].
  replace (Z.max 0 x) with x by lia. exact F.
Qed.

(** What [crop_box] returns, read off its two halves. *)
Lemma crop_box_inv (W H rw rh : Z) (focal_point : Q * Q) (b : CropBox) :
  0 < W -> 0 < H -> 0 < rw -> 0 < rh ->
  crop_box (W, H) (rw, rh) focal_point = Ok b ->
  0 <= box_width b <= W /\ 0 <= box_height b <= H /\
  crop_dims (W, H) (rw, rh) = Ok (box_width b, box_height b) /\
  box_x1 b = crop_corner W (box_width b) (inject_Z W * fst focal_point)%Q /\
  box_y1 b = crop_corner H (box_height b) (inject_Z H * snd focal_point)%Q.
Proof.
  intros HW HH Hrw Hrh. unfold crop_box.
  destruct (crop_dims (W, H) (rw, rh)) as [[w h]|e] eqn:D; [|discriminate].
  destruct (crop_dims_bounds W H rw rh w h HW HH Hrw Hrh D) as (Bw & Bh & _).
  cbn [rbind crop_origin fst snd]. intros [= <-].
  cbn [box_x1 box_y1 box_width box_height]. repeat split; lia.
Qed.


(** Where the box is put: inside the frame, in the target proportion up to
    the pixel lost by [int], pinned to an edge by a focal ratio at or beyond
    it, and otherwise, when the centred box fits, within one pixel of
    centred on the focal pixel. *)
Lemma crop_box_placement (W H rw rh : Z) (fx fy : Q) (b : CropBox) :
  0 < W -> 0 < H -> 0 < rw -> 0 < rh ->
  crop_box (W, H) (rw, rh) (fx, fy) = Ok b ->
  0 <= box_x1 b /\ box_x1 b + box_width b <= W /\
  0 <= box_y1 b /\ box_y1 b + box_height b <= H /\
  ((box_height b = H /\
    box_width b * rh <= box_height b * rw < (box_width b + 1) * rh) \/
   (box_width b = W /\
    box_height b * rw <= box_width b * rh < (box_height b + 1) * rw)) /\
  ((fx <= 0)%Q -> box_x1 b = 0) /\
  ((1 <= fx)%Q -> box_x1 b + box_width b = W) /\
  ((fy <= 0)%Q -> box_y1 b = 0) /\
  ((1 <= fy)%Q -> box_y1 b + box_height b = H) /\
  ((inject_Z (box_width b) / 2 <= inject_Z W * fx)%Q ->
   (inject_Z W * fx <= inject_Z W - inject_Z (box_width b) / 2)%Q ->
   (inject_Z (box_x1 b) - 1
    <= inject_Z W * fx - inject_Z (box_width b) / 2
    <= inject_Z (box_x1 b) + 1)%Q) /\
  ((inject_Z (box_height b) / 2 <= inject_Z H * fy)%Q ->
   (inject_Z H * fy <= inject_Z H - inject_Z (box_height b) / 2)%Q ->
   (inject_Z (box_y1 b) - 1
    <= inject_Z H * fy - inject_Z (box_height b) / 2
    <= inject_Z (box_y1 b) + 1)%Q).
Proof.
  intros HW HH Hrw Hrh Hb.
  destruct (crop_box_inv W H rw rh (fx, fy) b HW HH Hrw Hrh Hb)
    as (Bw & Bh & D & Ex & Ey). cbn [fst snd] in Ex, Ey.
  destruct (crop_dims_bounds W H rw rh _ _ HW HH Hrw Hrh D) as (_ & _ & R).
  destruct (crop_corner_bounds W (box_width b) (inject_Z W * fx)%Q Bw)
    as [X0 X1].
  destruct (crop_corner_bounds H (box_height b) (inject_Z H * fy)%Q Bh)
    as [Y0 Y1].
  assert (PW := inject_Z_pos W HW). assert (PH := inject_Z_pos H HH).
  rewrite <- Ex in X0, X1. rewrite <- Ey in Y0, Y1.
  do 4 (split; [assumption|]). split; [exact R|].
  split; [|split; [|split; [|split; [|split]]]].
  - intros Hf. rewrite Ex. apply crop_corner_left; [assumption|]. nra.
  - intros Hf. rewrite Ex at 1.
    rewrite crop_corner_right; [lia|assumption|]. nra.
  - intros Hf. rewrite Ey. apply crop_corner_left; [assumption|]. nra.
  - intros Hf. rewrite Ey at 1.
    rewrite crop_corner_right; [lia|assumption|]. nra.
  - intros Hlo Hhi. rewrite Ex.
    destruct (crop_corner_centred W (box_width b) _ Bw Hlo Hhi). split; lra.
  - intros Hlo Hhi. rewrite Ey.
    destruct (crop_corner_centred H (box_height b) _ Bh Hlo Hhi). split; lra.
Qed.

(** * Claims about the geometry *)

(** C1.  For a frame of positive size, a target aspect ratio of positive
    components and any focal point, the crop box of the per-segment geometry
    is computed without error, lies inside the frame ([0 <= x1], [0 <= y1],
    [x1 + width <= W], [y1 + height <= H]) and has the target aspect ratio
    up to integer rounding: one side is the frame's and the other is the
    integer part of the exact proportional length. *)
Theorem crop_box_within_frame (W H rw rh : Z) (focal_point : Q * Q) :
  0 < W -> 0 < H -> 0 < rw -> 0 < rh ->
  exists b : CropBox,
    crop_box (W, H) (rw, rh) focal_point = Ok b /\
    0 <= box_x1 b /\ 0 <= box_y1 b /\
    box_x1 b + box_width b <= W /\
    box_y1 b + box_height b <= H /\
    ((box_height b = H /\
      box_width b * rh <= box_height b * rw < (box_width b + 1) * rh) \/
     (box_width b = W /\
      box_height b * rw <= box_width b * rh < (box_height b + 1) * rw)).
Proof.
  intros HW HH Hrw Hrh.
  destruct (crop_dims (W, H) (rw, rh)) as [[w h]|e] eqn:D.
  2: { rewrite crop_dims_pos in D by assumption. discriminate. }
  destruct (crop_dims_bounds W H rw rh w h HW HH Hrw Hrh D) as (Bw & Bh & R).
  unfold crop_box. rewrite D. cbn [rbind crop_origin fst snd].
  eexists. split; [reflexivity|]. cbn [box_x1 box_y1 box_width box_height].
  destruct (crop_corner_bounds W w (inject_Z W * fst focal_point)%Q Bw).
  destruct (crop_corner_bounds H h (inject_Z H * snd focal_point)%Q Bh).
  repeat split; try assumption. 
Qed.

Lemma crop_box_within_frame_witness :
  0 < 1920 /\ 0 < 1080 /\ 0 < 9 /\ 0 < 16 /\
  exists b : CropBox,
    crop_box (1920, 1080) (9, 16) (3 # 10, 1 # 2)%Q = Ok b /\
    0 <= box_x1 b /\ 0 <= box_y1 b /\
    box_x1 b + box_width b <= 1920 /\
    box_y1 b + box_height b <= 1080 /\
    ((box_height b = 1080 /\
      box_width b * 16 <= box_height b * 9 < (box_width b + 1) * 16) \/
     (box_width b = 1920 /\
      box_height b * 9 <= box_width b * 16 < (box_height b + 1) * 9)).
Proof.
  repeat (split; [reflexivity|]).
  apply (crop_box_within_frame 1920 1080 9 16 (3 # 10, 1 # 2)%Q);
    reflexivity.
Defined.

(** C6.  When the frame already has the target aspect ratio
    ([W * ar_h = H * ar_w]) and the focal point is the centre (0.5, 0.5),
    the crop box is the full frame: [x1 = 0], [y1 = 0], [width = W],
    [height = H]. *)
Theorem crop_box_full_frame (W H rw rh : Z) :
  0 < W -> 0 < H -> 0 < rw -> 0 < rh ->
  W * rh = H * rw ->
  crop_box (W, H) (rw, rh) center = Ok (mkCropBox 0 0 W H).
Proof.
  intros HW HH Hrw Hrh E.
  assert (C : forall n : Z, 0 < n ->
            crop_corner n n (inject_Z n * (1 # 2))%Q = 0).
  { intros n Hn. unfold crop_corner.
    rewrite (int_Qeq _ 0%Q) by field.
    change (Py.int 0%Q) with 0. change (Z.max 0 0) with 0.
    rewrite Z.add_0_l. destruct (Z.gtb_spec n n); lia. }
  unfold crop_box. rewrite crop_dims_pos by assumption.
  rewrite <- E, Z.quot_mul by lia.
  destruct (Z.gtb_spec W W); [lia|].
  cbn [rbind crop_origin fst snd center].
  rewrite (C W HW), (C H HH). reflexivity.
Qed.

Lemma crop_box_full_frame_witness :
  0 < 1080 /\ 0 < 1920 /\ 0 < 9 /\ 0 < 16 /\ 1080 * 16 = 1920 * 9 /\
  crop_box (1080, 1920) (9, 16) center = Ok (mkCropBox 0 0 1080 1920).
Proof.
  repeat (split; [reflexivity|]).
  apply (crop_box_full_frame 1080 1920 9 16); reflexivity.
Defined.

(** * Claims about the image slides *)

Lemma nonempty_path_some (image_path : option string) (path : string) :
  image_path = Some path -> path <> EmptyString ->
  nonempty_path image_path = Some path.
Proof.
  intros -> Hne. destruct path; [contradiction|reflexivity].
Qed.

Lemma pan_offset_4 (i max_offset : Z) :
  pan_offset num_parts i max_offset = Z.quot (i * max_offset) 3.
Proof.
  unfold pan_offset, num_parts. cbn [Z.eqb Pos.eqb Z.sub Z.add Z.opp Z.pos_sub].
  apply int_div. reflexivity.
Qed.

(** C7, as stated, fails: for the 4000 x 3000 image [photo.jpg] and a
    1080 x 1920 output the scaled width is 2560 and [max_offset] is 1480;
    the four slides are cropped at 0, 493, 986 and 1480 pixels, and 493 is
    not [max_offset / 3], nor is 986 [2 * max_offset / 3]. *)
Lemma landscape_pan_offsets_not_exact :
  auto_orient_image example_world "photo.jpg" = (4000, 3000) /\
  scaled_size (4000, 3000) (1080, 1920) = Ok (2560, 1920) /\
  outcome (image_stage example_world photo_args []) =
  Ok (map (fun x_crop =>
             slide_at (4000, 3000) (2560, 1920) (1080, 1920) x_crop 0)
          [0; 493; 986; 1480]) /\
  ~ (inject_Z 493 == inject_Z (2560 - 1080) / 3)%Q /\
  ~ (inject_Z 986 == 2 * inject_Z (2560 - 1080) / 3)%Q.
Proof.
  repeat split; try reflexivity; vm_compute; discriminate.
Qed.

(** C7, amended.  For a landscape source image ([img_w > img_h]) and
    [num_parts = 4], the four slides appended by the image stage are cropped
    at the horizontal offsets [0], [int(max_offset / 3)],
    [int(2 * max_offset / 3)] and [max_offset], the two quotients truncated
    towards zero to whole pixels, where [max_offset] is the scaled image
    width [new_w] minus the output width [out_w]; the vertical offset of
    each slide is [0]. *)
Theorem landscape_pan_offsets (w : World) (a : Args) (path : string)
  (final_clips : list Clip) (img_w img_h out_w out_h new_w new_h : Z) :
  image_path a = Some path -> path <> EmptyString ->
  path_exists w path = true ->
  auto_orient_image w path = (img_w, img_h) ->
  output_resolution a = (out_w, out_h) ->
  img_w > img_h ->
  scaled_size (img_w, img_h) (out_w, out_h) = Ok (new_w, new_h) ->
  outcome (image_stage w a final_clips) =
  Ok (final_clips ++
      map (fun x_crop =>
             slide_at (img_w, img_h) (new_w, new_h) (out_w, out_h) x_crop 0)
          [0;
           Z.quot (new_w - out_w) 3;
           Z.quot (2 * (new_w - out_w)) 3;
           new_w - out_w]).
Proof.
  intros Hp Hne He Hi Ho Hl Hs.
  apply (nonempty_path_some _ _ Hp) in Hne.
  assert (P : forall i, image_part (img_w, img_h) (new_w, new_h)
                          (out_w, out_h) num_parts i
                        = slide_at (img_w, img_h) (new_w, new_h)
                            (out_w, out_h)
                            (Z.quot (i * (new_w - out_w)) 3) 0).
  { intros i. unfold image_part, part_crop.
    destruct (Z.gtb_spec img_w img_h); [|lia].
    rewrite pan_offset_4. reflexivity. }
  unfold image_stage. rewrite Hne, He, Hi, Ho, Hs.
  change (Z.to_nat num_parts) with 4%nat.
  cbn [image_parts bind lift print emit ret outcome snd app map].
  rewrite !P. repeat rewrite <- app_assoc. cbn [app].
  change (0 + 1) with 1. change (1 + 1) with 2. change (2 + 1) with 3.
  rewrite Z.mul_0_l, Z.mul_1_l, (Z.mul_comm 3 (new_w - out_w)).
  rewrite Z.quot_mul by discriminate. reflexivity.
Qed.

Lemma landscape_pan_offsets_witness :
  outcome (image_stage example_world photo_args []) =
  Ok (map (fun x_crop =>
             slide_at (4000, 3000) (2560, 1920) (1080, 1920) x_crop 0)
          [0; 493; 986; 1480]).
Proof.
  apply (landscape_pan_offsets example_world photo_args "photo.jpg" []
           4000 3000 1080 1920 2560 1920).
  - reflexivity.
  - discriminate.
  - reflexivity.
  - reflexivity.
  - reflexivity.
  - reflexivity.
  - reflexivity.
Defined.

(** * Reasoning about traced computations *)

Lemma outcome_bind {A B : Type} (m : M A) (k : A -> M B) :
  outcome (bind m k) =
  match outcome m with
  | Ok x => outcome (k x)
  | Raise e => Raise e
  end.
Proof.
  destruct m as [t [x|e]]; cbn [bind outcome snd]; [|reflexivity].
  destruct (k x); reflexivity.
Qed.

Lemma trace_bind {A B : Type} (m : M A) (k : A -> M B) :
  trace (bind m k) =
  trace m ++ match outcome m with
             | Ok x => trace (k x)
             | Raise _ => []
             end.
Proof.
  destruct m as [t [x|e]]; cbn [bind outcome trace fst snd].
  - destruct (k x); reflexivity.
  - symmetry; apply app_nil_r.
Qed.

Lemma outcome_print {B : Type} (text : string) (k : unit -> M B) :
  outcome (bind (print text) k) = outcome (k tt).
Proof. rewrite outcome_bind. reflexivity. Qed.

Lemma outcome_emit {B : Type} (e : event) (k : unit -> M B) :
  outcome (bind (emit e) k) = outcome (k tt).
Proof. rewrite outcome_bind. reflexivity. Qed.

Lemma outcome_lift {A B : Type} (r : result A) (k : A -> M B) :
  outcome (bind (lift r) k) =
  match r with
  | Ok x => outcome (k x)
  | Raise e => Raise e
  end.
Proof. rewrite outcome_bind. reflexivity. Qed.




Lemma ge_true (x y : Q) : Py.ge x y = true <-> (y <= x)%Q.
Proof. unfold Py.ge. apply Qle_bool_iff. Qed.

Lemma ge_false (x y : Q) : Py.ge x y = false <-> (x < y)%Q.
Proof.
  unfold Py.ge. rewrite <- not_true_iff_false, Qle_bool_iff.
  split; [apply Qnot_le_lt | apply Qlt_not_le].
Qed.

Lemma gt_false (x y : Q) : Py.gt x y = false <-> (x <= y)%Q.
Proof. unfold Py.gt. rewrite negb_false_iff. apply Qle_bool_iff. Qed.

Lemma le_false (x y : Q) : Py.le x y = false <-> (y < x)%Q.
Proof.
  unfold Py.le. rewrite <- not_true_iff_false, Qle_bool_iff.
  split; [apply Qnot_le_lt | apply Qlt_not_le].
Qed.

Lemma gt_true (x y : Q) : Py.gt x y = true <-> (y < x)%Q.
Proof.
  unfold Py.gt. rewrite negb_true_iff, <- not_true_iff_false, Qle_bool_iff.
  split; [apply Qnot_le_lt | apply Qlt_not_le].
Qed.

(** * The segment loop *)

(** [subclip] returns the sub-range exactly when the times lie within the
    clip. *)
Lemma subclip_within (c : Clip) (t_start t_end : Q) :
  within_clip c (t_start, t_end) ->
  subclip c t_start t_end = Ok (Subclip c t_start t_end).
Proof.
  intros (H0 & H1 & H2). cbn [fst snd] in *. unfold subclip.
  rewrite (proj2 (Qle_bool_iff 0 t_start) H0 : Py.le 0 t_start = true).
  rewrite (proj2 (gt_true t_end t_start) H1).
  rewrite (proj2 (Qle_bool_iff t_end (duration c)) H2
           : Py.le t_end (duration c) = true).
  reflexivity.
Qed.

Lemma subclip_inv (c : Clip) (t_start t_end : Q) (c' : Clip) :
  subclip c t_start t_end = Ok c' ->
  c' = Subclip c t_start t_end /\ within_clip c (t_start, t_end).
Proof.
  unfold subclip.
  destruct (Py.le 0 t_start) eqn:H0; [|discriminate].
  destruct (Py.gt t_end t_start) eqn:H1; [|discriminate].
  destruct (Py.le t_end (duration c)) eqn:H2; [|discriminate].
  cbn [andb]. intros [= <-]. split; [reflexivity|].
  repeat split; cbn [fst snd].
  - apply Qle_bool_iff. exact H0.
  - apply gt_true. exact H1.
  - apply Qle_bool_iff. exact H2.
Qed.

Lemma subclip_outside (c : Clip) (t_start t_end : Q) :
  ~ within_clip c (t_start, t_end) ->
  subclip c t_start t_end = Raise ServiceError.
Proof.
  intros N. destruct (subclip c t_start t_end) as [c'|e] eqn:E.
  - destruct (subclip_inv _ _ _ _ E) as [_ W]. contradiction.
  - unfold subclip in E. destruct (_ && _); [discriminate|]. symmetry. exact E.
Qed.

(** The outcome of lines 63-110, without the printing. *)
Lemma prepare_segment_outcome (a : Args) (original_clip : Clip) (idx : nat)
  (start_sec end_sec : Q) :
  outcome (prepare_segment a original_clip idx (start_sec, end_sec)) =
  (sub_clip <- subclip original_clip start_sec end_sec ;;
   sped_up_clip <- speedx sub_clip (speed_multiplier a) ;;
   box <- crop_box (size sped_up_clip) (target_aspect_ratio a)
            (segment_focal_point (focal_points a) idx) ;;
   Ok (if negb (size_eqb (size (Crop sped_up_clip box)) (output_resolution a))
       then Resize (Crop sped_up_clip box) (output_resolution a)
       else Crop sped_up_clip box)).
Proof.
  unfold prepare_segment. rewrite outcome_print, outcome_lift.
  destruct (subclip _ _ _) as [sub_clip|e]; [|reflexivity]. cbn [rbind].
  rewrite outcome_lift.
  destruct (speedx _ _) as [sped_up_clip|e]; [|reflexivity]. cbn [rbind].
  rewrite !outcome_print, outcome_lift.
  destruct (crop_box _ _ _) as [box|e]; [|reflexivity]. cbn [rbind].
  rewrite outcome_print.
  destruct (negb _); [rewrite outcome_print|]; reflexivity.
Qed.

Lemma size_eqb_eq (s1 s2 : Z * Z) : size_eqb s1 s2 = true -> s1 = s2.
Proof.
  destruct s1 as [w1 h1], s2 as [w2 h2]. unfold size_eqb. cbn [fst snd].
  rewrite andb_true_iff, !Z.eqb_eq. intros [-> ->]. reflexivity.
Qed.

(** The focal point of segment [idx] is the entry of that number when the
    list has one, and the centre otherwise. *)
Lemma segment_focal_point_nth (focal_points : option (list (Q * Q)))
  (idx : nat) :
  segment_focal_point focal_points idx =
  nth idx (match focal_points with Some fps => fps | None => [] end) center.
Proof.
  unfold segment_focal_point. destruct focal_points as [[|fp fps]|].
  - destruct idx; reflexivity.
  - destruct (Nat.ltb_spec idx (List.length (fp :: fps))); [reflexivity|].
    symmetry. apply nth_overflow. assumption.
  - destruct idx; reflexivity.
Qed.

(** The clip made of a segment: the sub-range, sped up, cropped around the
    segment's own focal point (or the centre), and resized unless the crop
    already has the output resolution. *)
Lemma prepared_inv (a : Args) (original_clip : Clip) (idx : nat)
  (segment : Q * Q) (c : Clip) :
  prepared a original_clip idx segment c ->
  exists box : CropBox,
    crop_box (size original_clip) (target_aspect_ratio a)
      (nth idx (match focal_points a with Some fps => fps | None => [] end)
           center) = Ok box /\
    let cropped :=
      Crop (Speedx (Subclip original_clip (fst segment) (snd segment))
              (speed_multiplier a)) box in
    (c = cropped \/ c = Resize cropped (output_resolution a)) /\
    size c = output_resolution a.
Proof.
  unfold prepared. destruct segment as [start_sec end_sec].
  rewrite prepare_segment_outcome.
  destruct (subclip _ _ _) as [sub_clip|e] eqn:S; [|discriminate].
  apply subclip_inv in S. destruct S as [-> _]. cbn [rbind].
  unfold speedx. destruct (Qeq_bool (speed_multiplier a) 0); [discriminate|].
  cbn [rbind]. rewrite segment_focal_point_nth. cbn [size].
  destruct (crop_box _ _ _) as [box|e]; [|discriminate].
  cbn [rbind]. intros H. exists box. split; [reflexivity|].
  cbn zeta. cbn [fst snd]. destruct (size_eqb _ _) eqn:E; cbn [negb] in H.
  - injection H as <-. split; [left; reflexivity|].
    apply size_eqb_eq in E. exact E.
  - injection H as <-. split; [right; reflexivity | reflexivity].
Qed.

(** A clip made of a segment is a crop or a resize, never a sub-range. *)
Lemma prepared_not_subclip (a : Args) (original_clip : Clip) (idx : nat)
  (segment : Q * Q) (c c' : Clip) (t_start t_end : Q) :
  prepared a original_clip idx segment c -> c <> Subclip c' t_start t_end.
Proof.
  intros P E.
  destruct (prepared_inv a original_clip idx segment c P)
    as (box & _ & [Hc | Hc] & _); rewrite Hc in E; discriminate.
Qed.

Section SegmentLoop.

Variable a : Args.
Variable original_clip : Clip.

Lemma prepared_duration (idx : nat) (segment : Q * Q) (c : Clip) :
  prepared a original_clip idx segment c ->
  duration c = sped_up_duration a original_clip segment.
Proof.
  unfold prepared, sped_up_duration.
  destruct segment as [start_sec end_sec]. rewrite prepare_segment_outcome.
  destruct (subclip _ _ _) as [sub_clip|e] eqn:S; [|discriminate].
  apply subclip_inv in S. destruct S as [-> _]. cbn [rbind].
  unfold speedx. destruct (Qeq_bool (speed_multiplier a) 0); [discriminate|].
  cbn [rbind]. destruct (crop_box _ _ _) as [box|e]; [|discriminate].
  cbn [rbind]. destruct (negb _); intros [= <-]; reflexivity.
Qed.


(** A truncation to what is left of the budget lies within the clip. *)
Lemma trim_within (c : Clip) (cur0 : Q) :
  (cur0 < max_duration_sec a)%Q ->
  (max_duration_sec a < cur0 + duration c)%Q ->
  subclip c 0 (max_duration_sec a - cur0)
  = Ok (Subclip c 0 (max_duration_sec a - cur0)).
Proof.
  intros G T. apply subclip_within. repeat split; cbn [fst snd]; lra.
Qed.

(** Once the budget is used up the loop leaves its state alone. *)
Lemma segment_loop_break (idx : nat) (segments : list (Q * Q))
  (st : list Clip * Q) :
  Py.ge (snd st) (max_duration_sec a) = true ->
  outcome (segment_loop a original_clip idx segments st) = Ok st.
Proof.
  destruct st as [final_clips current_duration]. cbn [snd]. intros G.
  destruct segments; cbn [segment_loop]; [reflexivity|].
  rewrite G. apply outcome_print.
Qed.

(** What the loop returns: the clips of the first [k] segments in full,
    then at most one truncated clip, which is the one of segment [k]; the
    running total grows by the durations of the clips added. *)
Lemma segment_loop_shape (segments : list (Q * Q)) :
  forall (idx : nat) (clips0 : list Clip) (cur0 : Q) (clips : list Clip)
         (cur : Q),
  outcome (segment_loop a original_clip idx segments (clips0, cur0))
  = Ok (clips, cur) ->
  exists (k : nat) (full tail : list Clip),
    (k <= List.length segments)%nat /\
    clips = clips0 ++ full ++ tail /\
    prepared_prefix a original_clip idx k segments full /\
    ((cur0 <= max_duration_sec a)%Q -> (cur <= max_duration_sec a)%Q) /\
    (cur == cur0 + Qsum (map duration (full ++ tail)))%Q /\
    ((tail = [] /\
      (k = List.length segments \/
       ((k < List.length segments)%nat /\ (max_duration_sec a <= cur)%Q)))
     \/
     ((k < List.length segments)%nat /\
      exists (c : Clip) (trim : Q),
        prepared a original_clip (idx + k) (nth k segments (0, 0)%Q) c /\
        tail = [Subclip c 0 trim] /\
        (0 < trim)%Q /\ (trim < duration c)%Q /\
        (cur == max_duration_sec a)%Q)).
Proof.
  induction segments as [|segment rest IH]; intros idx clips0 cur0 clips cur.
  - cbn [segment_loop ret outcome snd]. intros [= <- <-].
    exists 0%nat, [], []. repeat split.
    + reflexivity.
    + symmetry. apply app_nil_r.
    + constructor.
    + auto.
    + cbn. ring.
    + left. split; [reflexivity|]. left. reflexivity.
  - cbn [segment_loop]. destruct (Py.ge cur0 (max_duration_sec a)) eqn:G.
    + rewrite outcome_print. cbn [ret outcome snd]. intros [= <- <-].
      apply ge_true in G.
      exists 0%nat, [], []. repeat split.
      * cbn; lia.
      * symmetry. apply app_nil_r.
      * constructor.
      * auto.
      * cbn. ring.
      * left. split; [reflexivity|].
        right. split; [cbn; lia | assumption].
    + apply ge_false in G. rewrite outcome_bind.
      destruct (outcome (prepare_segment a original_clip idx segment))
        as [c|e] eqn:P; [|discriminate].
      destruct (Py.gt (cur0 + duration c) (max_duration_sec a)) eqn:T.
      * apply gt_true in T. rewrite outcome_print, outcome_lift.
        rewrite trim_within by assumption.
        destruct (Py.le _ 0) eqn:L.
        { apply Qle_bool_iff in L. cbn [duration] in L. lra. }
        apply le_false in L. cbn [duration] in L.
        rewrite outcome_print, segment_loop_break
          by (apply ge_true; cbn [snd duration]; lra).
        intros [= <- <-].
        exists 0%nat, [], [Subclip c 0 (max_duration_sec a - cur0)].
        repeat split.
        -- cbn; lia.
        -- constructor.
        -- cbn [duration]. intros _. lra.
        -- cbn. ring.
        -- right. split; [cbn; lia|].
           exists c, (max_duration_sec a - cur0)%Q. repeat split.
           ++ rewrite Nat.add_0_r. exact P.
           ++ lra.
           ++ lra.
           ++ cbn [duration]. lra.
      * apply gt_false in T. rewrite outcome_print. intros R.
        destruct (IH _ _ _ _ _ R)
          as (k & full & tail & Hk & Hc & Hp & Hm & Hsum & Hs).
        exists (S k), (c :: full), tail. repeat split.
        -- cbn; lia.
        -- rewrite Hc, <- app_assoc. reflexivity.
        -- constructor; assumption.
        -- intros _. auto.
        -- change (Qsum (map duration ((c :: full) ++ tail)))
             with (duration c + Qsum (map duration (full ++ tail)))%Q.
           rewrite Hsum. ring.
        -- destruct Hs as [(Ht & Hk')
                          | (Hk' & c' & trim & Hp' & Ht & Hpos & Hshort & Hcur)].
           ++ left. split; [assumption|].
              destruct Hk' as [->|[Hlt Hge]]; [left; reflexivity|].
              right. split; [cbn; lia | assumption].
           ++ right. split; [cbn; lia|]. exists c', trim. repeat split;
                try assumption.
              rewrite Nat.add_succ_r. exact Hp'.
Qed.







End SegmentLoop.




(** * The whole function, stage by stage *)

Lemma close_all_outcome (clips : list Clip) : outcome (close_all clips) = Ok tt.
Proof.
  induction clips as [|c rest IH]; [reflexivity|].
  cbn [close_all]. rewrite outcome_emit. exact IH.
Qed.

Lemma write_and_release_outcome (w : World) (a : Args)
  (original_clip : Clip) (final_clips : list Clip) (final_video : Clip) :
  outcome (write_and_release w a original_clip final_clips final_video)
  = Ok tt.
Proof.
  unfold write_and_release. rewrite outcome_bind.
  assert (E : forall m : M unit, outcome m = Ok tt ->
              outcome (bind m (fun _ =>
                emit (Close original_clip) ;;;
                close_all final_clips ;;; emit (Close final_video))) = Ok tt).
  { intros m Hm. rewrite outcome_bind, Hm, outcome_emit, outcome_bind.
    rewrite close_all_outcome. reflexivity. }
  destruct (write_succeeds w (output_video_path a)).
  - rewrite outcome_emit. cbn [print emit outcome snd].
    rewrite outcome_emit, outcome_bind, close_all_outcome. reflexivity.
  - cbn [print emit outcome snd].
    rewrite outcome_emit, outcome_bind, close_all_outcome. reflexivity.
Qed.

(** The outcome of [create_youtube_short], read off its stages. *)
Lemma create_youtube_short_outcome (w : World) (a : Args) :
  outcome (create_youtube_short w a) =
  match video_file w (input_video_path a) with
  | None => Ok tt
  | Some info =>
      let original_clip := VideoFileClip (input_video_path a) info in
      match iterate (clips_of_interest a) with
      | Raise e => Raise e
      | Ok segments =>
          match outcome (segment_loop a original_clip 0 segments ([], 0%Q))
          with
          | Raise e => Raise e
          | Ok st =>
              match outcome (image_stage w a (fst st)) with
              | Raise e => Raise e
              | Ok [] => Ok tt
              | Ok (c :: cs) =>
                  match outcome (final_assembly a (c :: cs)) with
                  | Raise e => Raise e
                  | Ok _ => Ok tt
                  end
              end
          end
      end
  end.
Proof.
  unfold create_youtube_short. rewrite outcome_bind.
  change (outcome announce) with (Ok tt).
  destruct (video_file w (input_video_path a)) as [info|]; [|reflexivity].
  rewrite outcome_print, outcome_lift. cbn zeta.
  destruct (iterate (clips_of_interest a)) as [segments|e]; [|reflexivity].
  rewrite outcome_bind.
  destruct (outcome (segment_loop _ _ _ _ _)) as [st|e]; [|reflexivity].
  rewrite outcome_bind.
  destruct (outcome (image_stage w a (fst st))) as [[|c cs]|e];
    try reflexivity.
  rewrite outcome_bind.
  destruct (outcome (final_assembly a (c :: cs))) as [final_video|e];
    [|reflexivity].
  apply write_and_release_outcome.
Qed.

(** The trace of [create_youtube_short], read off its stages. *)
Lemma create_youtube_short_trace (w : World) (a : Args) :
  trace (create_youtube_short w a) =
  trace announce ++
  match video_file w (input_video_path a) with
  | None => [Stdout "[ERROR] Error loading video"]
  | Some info =>
      let original_clip := VideoFileClip (input_video_path a) info in
      Stdout "[INFO] Loaded video." ::
      match iterate (clips_of_interest a) with
      | Raise e => []
      | Ok segments =>
          let loop := segment_loop a original_clip 0 segments ([], 0%Q) in
          trace loop ++
          match outcome loop with
          | Raise e => []
          | Ok st =>
              trace (image_stage w a (fst st)) ++
              match outcome (image_stage w a (fst st)) with
              | Raise e => []
              | Ok [] => [Stdout "[ERROR] No clips were processed or added."]
              | Ok (c :: cs) =>
                  trace (final_assembly a (c :: cs)) ++
                  match outcome (final_assembly a (c :: cs)) with
                  | Raise e => []
                  | Ok final_video =>
                      trace (write_and_release w a original_clip (c :: cs)
                               final_video)
                  end
              end
          end
      end
  end.
Proof.
  unfold create_youtube_short. rewrite trace_bind.
  change (outcome announce) with (Ok tt). f_equal.
  destruct (video_file w (input_video_path a)) as [info|]; [|reflexivity].
  rewrite trace_bind. cbn [print emit trace outcome fst snd app]. f_equal.
  rewrite trace_bind. cbn [lift trace outcome fst snd app].
  destruct (iterate (clips_of_interest a)) as [segments|e]; [|reflexivity].
  cbn zeta. rewrite trace_bind. f_equal.
  destruct (outcome (segment_loop _ _ _ _ _)) as [st|e]; [|reflexivity].
  rewrite trace_bind. f_equal.
  destruct (outcome (image_stage w a (fst st))) as [[|c cs]|e];
    try reflexivity.
  rewrite trace_bind. reflexivity.
Qed.

Lemma image_part_size_duration (img_size new_size output_resolution : Z * Z)
  (parts i : Z) :
  size (image_part img_size new_size output_resolution parts i)
  = output_resolution /\
  duration (image_part img_size new_size output_resolution parts i)
  = duration_per_part.
Proof.
  unfold image_part. destruct (part_crop _ _ _ _ _) as [x y].
  unfold slide_at. destruct output_resolution. split; reflexivity.
Qed.

Lemma image_parts_sizes (img_size new_size output_resolution : Z * Z)
  (parts : Z) (todo : nat) :
  forall (i : Z) (clips final_clips : list Clip),
  Forall (fun c => size c = output_resolution) clips ->
  outcome (image_parts img_size new_size output_resolution parts i todo clips)
  = Ok final_clips ->
  Forall (fun c => size c = output_resolution) final_clips.
Proof.
  induction todo as [|todo IH]; intros i clips final_clips Hclips.
  - cbn [image_parts ret outcome snd]. intros [= <-]. exact Hclips.
  - cbn [image_parts]. rewrite outcome_print. apply IH.
    apply Forall_app. split; [exact Hclips|].
    constructor; [|constructor]. apply image_part_size_duration.
Qed.

Lemma image_stage_sizes (w : World) (a : Args) (clips final_clips : list Clip) :
  Forall (fun c => size c = output_resolution a) clips ->
  outcome (image_stage w a clips) = Ok final_clips ->
  Forall (fun c => size c = output_resolution a) final_clips.
Proof.
  intros Hclips. unfold image_stage.
  destruct (nonempty_path (image_path a)) as [path|].
  - destruct (path_exists w path).
    + rewrite outcome_print, outcome_emit, outcome_lift.
      destruct (scaled_size _ _) as [new_size|e]; [|discriminate].
      rewrite outcome_bind.
      destruct (outcome (image_parts _ _ _ _ _ _ _)) as [parts|e] eqn:P;
        [|discriminate].
      rewrite outcome_print. intros [= <-].
      exact (image_parts_sizes _ _ _ _ _ _ _ _ Hclips P).
    + rewrite outcome_print. intros [= <-]. exact Hclips.
  - intros [= <-]. exact Hclips.
Qed.

Lemma segment_loop_sizes (a : Args) (original_clip : Clip)
  (segments : list (Q * Q)) (st : list Clip * Q) :
  outcome (segment_loop a original_clip 0 segments ([], 0%Q)) = Ok st ->
  Forall (fun c => size c = output_resolution a) (fst st).
Proof.
  destruct st as [clips cur]. intros Hloop.
  destruct (segment_loop_shape a original_clip segments _ _ _ _ _ Hloop)
    as (k & full & tail & _ & Hc & Hp & _ & _ & Hshape).
  cbn [app fst] in *. subst clips. apply Forall_app. split.
  - unfold prepared_prefix in Hp. clear - Hp.
    induction Hp as [|[i seg] c l l' Hc _ IH]; constructor; [|exact IH].
    destruct (prepared_inv a original_clip i seg c Hc) as (_ & _ & _ & E).
    exact E.
  - destruct Hshape as [(-> & _) | (_ & c & trim & P & -> & _)];
      constructor; [|constructor].
    destruct (prepared_inv a original_clip _ _ c P) as (_ & _ & _ & E).
    exact E.
Qed.

Lemma close_all_trace (clips : list Clip) :
  close_all clips = (map Close clips, Ok tt).
Proof.
  induction clips as [|c rest IH]; [reflexivity|].
  cbn [close_all map]. rewrite IH. reflexivity.
Qed.

(** The trace of the write step: the report, then the releases. *)
Lemma write_and_release_trace (w : World) (a : Args)
  (original_clip : Clip) (final_clips : list Clip) (final_video : Clip) :
  trace (write_and_release w a original_clip final_clips final_video) =
  (if write_succeeds w (output_video_path a)
   then [Wrote (output_video_path a) final_video (fps original_clip);
         Stdout "YouTube Short successfully created"]
   else [Stdout "Error writing video file"])
  ++ Close original_clip :: map Close final_clips ++ [Close final_video].
Proof.
  unfold write_and_release. rewrite close_all_trace.
  destruct (write_succeeds w (output_video_path a));
    cbn [bind emit print trace fst app]; rewrite ?app_nil_r; reflexivity.
Qed.

(** * Claims about the whole function *)

Lemma image_parts_appends (img_size new_size output_resolution : Z * Z)
  (parts : Z) (todo : nat) :
  forall (i : Z) (final_clips : list Clip),
  exists slides,
    outcome (image_parts img_size new_size output_resolution parts i todo
               final_clips) = Ok (final_clips ++ slides).
Proof.
  induction todo as [|todo IH]; intros i final_clips.
  - exists []. cbn [image_parts ret outcome snd]. now rewrite app_nil_r.
  - cbn [image_parts]. rewrite outcome_print.
    destruct (IH (i + 1) (final_clips ++
                [image_part img_size new_size output_resolution parts i]))
      as [slides E].
    rewrite E, <- app_assoc. eexists. reflexivity.
Qed.

Lemma image_stage_appends (w : World) (a : Args)
  (clips final_clips : list Clip) :
  outcome (image_stage w a clips) = Ok final_clips ->
  exists slides, final_clips = clips ++ slides.
Proof.
  unfold image_stage. destruct (nonempty_path (image_path a)) as [path|].
  - destruct (path_exists w path).
    + rewrite outcome_print, outcome_emit, outcome_lift.
      destruct (scaled_size _ _) as [new_size|e]; [|discriminate].
      rewrite outcome_bind.
      destruct (image_parts_appends (auto_orient_image w path) new_size
                  (output_resolution a) num_parts (Z.to_nat num_parts) 0
                  clips) as [slides E].
      rewrite E, outcome_print. intros [= <-]. exists slides. reflexivity.
    + rewrite outcome_print. intros [= <-]. exists [].
      symmetry. apply app_nil_r.
  - intros [= <-]. exists []. symmetry. apply app_nil_r.
Qed.

Lemma final_assembly_outcome (a : Args) (final_clips : list Clip)
  (focal_point : Q * Q) (rest : list (Q * Q)) :
  focal_points a = Some (focal_point :: rest) ->
  0 < fst (target_aspect_ratio a) -> 0 < snd (target_aspect_ratio a) ->
  exists box,
    crop_box (size (Concatenate final_clips)) (target_aspect_ratio a)
      focal_point = Ok box /\
    outcome (final_assembly a final_clips) =
    Ok (resize_if_needed (output_resolution a)
          (Crop (Concatenate final_clips) box)).
Proof.
  intros Hf Hw Hh. unfold final_assembly, crop_box.
  rewrite outcome_print, outcome_lift, Hf.
  destruct (target_aspect_ratio a) as [rw rh].
  destruct (size (Concatenate final_clips)) as [W H].
  rewrite crop_dims_pos by assumption. cbn [rbind].
  rewrite outcome_lift. cbn [first_focal_point].
  destruct (crop_origin _ _ _) as [x1 y1].
  rewrite !outcome_print. eexists. split; reflexivity.
Qed.


(** C3.  In an invocation that produces at least one clip and supplies a
    non-empty focal-point list, the clips handed to the final assembly are
    the segment clips, in segment order, followed by the slides; their
    concatenation has the output resolution as its frame, and the final
    video is that concatenation cropped to the box derived from the frame,
    the aspect ratio and the first focal point alone (then resized if
    needed), whatever the other focal points and however many segments
    there are; that video is what reaches the write step.  The box is tied
    to the first focal point [(fx, fy)]: it lies in the frame, has the
    target proportion up to a pixel, is pinned to the left or top edge when
    [fx <= 0] or [fy <= 0] and to the right or bottom edge when [1 <= fx]
    or [1 <= fy], and otherwise, when the centred box fits, its corner is
    within one pixel of the focal pixel minus half the box. *)
Theorem final_assembly_uses_first_focal_point (w : World) (a : Args)
  (info : VideoInfo) (segments : list (Q * Q)) (seg_clips : list Clip)
  (cur : Q) (final_clips : list Clip) (focal_point : Q * Q)
  (rest : list (Q * Q)) :
  video_file w (input_video_path a) = Some info ->
  clips_of_interest a = Some segments ->
  outcome (segment_loop a (VideoFileClip (input_video_path a) info) 0
             segments ([], 0%Q)) = Ok (seg_clips, cur) ->
  outcome (image_stage w a seg_clips) = Ok final_clips ->
  final_clips <> [] ->
  focal_points a = Some (focal_point :: rest) ->
  0 < fst (target_aspect_ratio a) -> 0 < snd (target_aspect_ratio a) ->
  exists (k : nat) (full tail slides : list Clip) (box : CropBox)
         (pre : list event),
    final_clips = (full ++ tail) ++ slides /\
    seg_clips = full ++ tail /\
    prepared_prefix a (VideoFileClip (input_video_path a) info) 0 k segments
      full /\
    (tail = [] \/
     exists (c : Clip) (trim : Q),
       prepared a (VideoFileClip (input_video_path a) info) k
         (nth k segments (0, 0)%Q) c /\
       tail = [Subclip c 0 trim]) /\
    size (Concatenate final_clips) = output_resolution a /\
    crop_box (size (Concatenate final_clips)) (target_aspect_ratio a)
      focal_point = Ok box /\
    outcome (final_assembly a final_clips) =
    Ok (resize_if_needed (output_resolution a)
          (Crop (Concatenate final_clips) box)) /\
    outcome (create_youtube_short w a) = Ok tt /\
    trace (create_youtube_short w a) =
    pre ++ trace (write_and_release w a
                    (VideoFileClip (input_video_path a) info) final_clips
                    (resize_if_needed (output_resolution a)
                       (Crop (Concatenate final_clips) box))) /\
    forall (W H rw rh : Z) (fx fy : Q),
      output_resolution a = (W, H) -> target_aspect_ratio a = (rw, rh) ->
      focal_point = (fx, fy) -> 0 < W -> 0 < H ->
      0 <= box_x1 box /\ box_x1 box + box_width box <= W /\
      0 <= box_y1 box /\ box_y1 box + box_height box <= H /\
      ((box_height box = H /\
        box_width box * rh <= box_height box * rw
        < (box_width box + 1) * rh) \/
       (box_width box = W /\
        box_height box * rw <= box_width box * rh
        < (box_height box + 1) * rw)) /\
      ((fx <= 0)%Q -> box_x1 box = 0) /\
      ((1 <= fx)%Q -> box_x1 box + box_width box = W) /\
      ((fy <= 0)%Q -> box_y1 box = 0) /\
      ((1 <= fy)%Q -> box_y1 box + box_height box = H) /\
      ((inject_Z (box_width box) / 2 <= inject_Z W * fx)%Q ->
       (inject_Z W * fx <= inject_Z W - inject_Z (box_width box) / 2)%Q ->
       (inject_Z (box_x1 box) - 1
        <= inject_Z W * fx - inject_Z (box_width box) / 2
        <= inject_Z (box_x1 box) + 1)%Q) /\
      ((inject_Z (box_height box) / 2 <= inject_Z H * fy)%Q ->
       (inject_Z H * fy <= inject_Z H - inject_Z (box_height box) / 2)%Q ->
       (inject_Z (box_y1 box) - 1
        <= inject_Z H * fy - inject_Z (box_height box) / 2
        <= inject_Z (box_y1 box) + 1)%Q).
Proof.
  intros Hload Hsegs Hloop Himage Hne Hfocal Hw Hh.
  set (original_clip := VideoFileClip (input_video_path a) info) in *.
  destruct (segment_loop_shape a original_clip segments _ _ _ _ _ Hloop)
    as (k & full & tail & _ & Hc & Hp & _ & _ & Hshape).
  cbn [app] in Hc.
  destruct (image_stage_appends w a seg_clips final_clips Himage)
    as [slides Hslides].
  destruct (final_assembly_outcome a final_clips focal_point rest
              Hfocal Hw Hh) as (box & Hbox & Hfinal).
  assert (Hsizes : Forall (fun c => size c = output_resolution a) final_clips).
  { apply (image_stage_sizes w a seg_clips); [|exact Himage].
    exact (segment_loop_sizes a original_clip segments _ Hloop). }
  destruct final_clips as [|c cs]; [contradiction|].
  assert (Hsize : size (Concatenate (c :: cs)) = output_resolution a)
    by (inversion Hsizes; assumption).
  exists k, full, tail, slides, box.
  eexists. split; [rewrite Hslides, Hc; reflexivity|].
  split; [exact Hc|]. split; [exact Hp|]. split.
  { destruct Hshape as [(Ht & _) | (_ & c' & trim & P & Ht & _)].
    - left. exact Ht.
    - right. exists c', trim. split; assumption. }
  split; [exact Hsize|]. split; [exact Hbox|]. split; [exact Hfinal|].
  split; [|split].
  - rewrite create_youtube_short_outcome, Hload, Hsegs.
    cbn [iterate]. cbv zeta. fold original_clip.
    rewrite Hloop. cbn [fst]. rewrite Himage, Hfinal. reflexivity.
  - rewrite create_youtube_short_trace, Hload, Hsegs.
    cbn [iterate]. cbv zeta. fold original_clip.
    rewrite Hloop. cbn [fst]. rewrite Himage, Hfinal.
    rewrite app_comm_cons, !app_assoc. reflexivity.
  - intros W H rw rh fx fy Hout Hratio Hfp HW HH.
    rewrite Hsize, Hout, Hratio, Hfp in Hbox.
    rewrite Hratio in Hw, Hh. cbn [fst snd] in Hw, Hh.
    exact (crop_box_placement W H rw rh fx fy box HW HH Hw Hh Hbox).
Qed.

Lemma final_assembly_uses_first_focal_point_witness :
  fst wide_state <> [] /\
  focal_points wide_args = Some [(3 # 4, 1 # 2); (1 # 4, 1 # 2)]%Q /\
  size (Concatenate (fst wide_state)) = (1920, 1080) /\
  crop_box (1920, 1080) (9, 16) (3 # 4, 1 # 2)%Q
  = Ok (mkCropBox 1136 0 607 1080) /\
  crop_box (1920, 1080) (9, 16) (1 # 4, 1 # 2)%Q
  = Ok (mkCropBox 176 0 607 1080) /\
  outcome (final_assembly wide_args (fst wide_state)) =
  Ok (Resize (Crop (Concatenate (fst wide_state))
                (mkCropBox 1136 0 607 1080)) (1920, 1080)) /\
  outcome (create_youtube_short example_world wide_args) = Ok tt /\
  (inject_Z 1136 - 1 <= inject_Z 1920 * (3 # 4) - inject_Z 607 / 2
   <= inject_Z 1136 + 1)%Q.
Proof.
  destruct (final_assembly_uses_first_focal_point example_world wide_args
              example_info [(10, 15); (20, 25)]%Q
              (fst wide_state) (snd wide_state) (fst wide_state)
              (3 # 4, 1 # 2)%Q [(1 # 4, 1 # 2)%Q]
              eq_refl eq_refl eq_refl eq_refl ltac:(discriminate)
              eq_refl eq_refl eq_refl)
    as (k & full & tail & slides & box & pre & _ & _ & _ & _ & Hsize & Hbox
        & Hfinal & Hout & _ & Hplace).
  rewrite Hsize in Hbox.
  change (crop_box (output_resolution wide_args)
            (target_aspect_ratio wide_args) (3 # 4, 1 # 2)%Q)
    with (Ok (mkCropBox 1136 0 607 1080)) in Hbox.
  injection Hbox as <-.
  destruct (Hplace 1920 1080 9 16 (3 # 4)%Q (1 # 2)%Q
              eq_refl eq_refl eq_refl eq_refl eq_refl)
    as (_ & _ & _ & _ & _ & _ & _ & _ & _ & Hx & _).
  split; [discriminate|]. split; [reflexivity|]. split; [exact Hsize|].
  split; [reflexivity|]. split; [reflexivity|]. split; [exact Hfinal|].
  split; [exact Hout|].
  apply Hx; vm_compute; discriminate.
Defined.

(** C4.  If loading the source video fails, the function prints the
    loading error and returns: nothing else happens, no file is written and
    nothing is raised.  If the write step is reached and writing fails, the
    function prints the writing error and returns without raising. *)
Theorem failures_are_reported_not_raised (w : World) (a : Args) :
  (video_file w (input_video_path a) = None ->
   create_youtube_short w a =
   (trace announce ++ [Stdout "[ERROR] Error loading video"], Ok tt))
  /\
  (forall (info : VideoInfo) (segments : list (Q * Q))
          (st : list Clip * Q) (final_clips : list Clip)
          (final_video : Clip),
   video_file w (input_video_path a) = Some info ->
   clips_of_interest a = Some segments ->
   outcome (segment_loop a (VideoFileClip (input_video_path a) info) 0
              segments ([], 0%Q)) = Ok st ->
   outcome (image_stage w a (fst st)) = Ok final_clips ->
   final_clips <> [] ->
   outcome (final_assembly a final_clips) = Ok final_video ->
   write_succeeds w (output_video_path a) = false ->
   outcome (create_youtube_short w a) = Ok tt /\
   In (Stdout "Error writing video file") (trace (create_youtube_short w a))).
Proof.
  split.
  - intros Hload. unfold create_youtube_short. rewrite Hload. reflexivity.
  - intros info segments st final_clips final_video
           Hload Hsegs Hloop Himage Hne Hfinal Hwrite.
    destruct final_clips as [|c cs]; [contradiction|]. split.
    + rewrite create_youtube_short_outcome, Hload, Hsegs.
      cbn [iterate]. cbv zeta. rewrite Hloop, Himage, Hfinal. reflexivity.
    + rewrite create_youtube_short_trace, Hload, Hsegs.
      cbn [iterate]. cbv zeta. rewrite Hloop, Himage, Hfinal.
      apply in_or_app. right. right.
      apply in_or_app. right. apply in_or_app. right.
      apply in_or_app. right.
      unfold write_and_release. rewrite Hwrite, trace_bind.
      apply in_or_app. left. left. reflexivity.
Qed.

Lemma failures_are_reported_not_raised_witness :
  create_youtube_short example_world
    (with_paths "missing.mp4" "out.mp4" example_args) =
  (trace announce ++ [Stdout "[ERROR] Error loading video"], Ok tt)
  /\
  (outcome (create_youtube_short example_world
              (with_paths "in.mp4" "full.mp4" example_args)) = Ok tt /\
   In (Stdout "Error writing video file")
      (trace (create_youtube_short example_world
                (with_paths "in.mp4" "full.mp4" example_args)))).
Proof.
  split.
  - apply (proj1 (failures_are_reported_not_raised example_world
                    (with_paths "missing.mp4" "out.mp4" example_args))).
    reflexivity.
  - apply (proj2 (failures_are_reported_not_raised example_world
                    (with_paths "in.mp4" "full.mp4" example_args))
             example_info [(10, 15); (20, 25); (30, 35)]%Q example_state
             (fst example_state)
             (resize_if_needed (1080, 1920)
                (Crop (Concatenate (fst example_state))
                   (mkCropBox 0 0 1080 1920)))).
    + reflexivity.
    + reflexivity.
    + vm_compute. reflexivity.
    + vm_compute. reflexivity.
    + discriminate.
    + vm_compute. reflexivity.
    + reflexivity.
Defined.

(** The write path releases the source clip, the listed clips and the final
    video whether or not the write succeeds. *)
Lemma write_and_release_closes (w : World) (a : Args)
  (original_clip : Clip) (final_clips : list Clip) (final_video : Clip) :
  exists reported : list event,
    trace (write_and_release w a original_clip final_clips final_video) =
    reported ++ Close original_clip :: map Close final_clips
             ++ [Close final_video].
Proof.
  assert (C : forall clips, close_all clips = (map Close clips, Ok tt)).
  { induction clips as [|c rest IH]; [reflexivity|].
    cbn [close_all map]. rewrite IH. reflexivity. }
  unfold write_and_release. rewrite C.
  destruct (write_succeeds w (output_video_path a)); eexists;
    cbn [bind emit print trace fst app]; rewrite ?app_nil_r;
    [ change (?x :: ?y :: ?l) with ([x; y] ++ l)
    | change (?x :: ?l) with ([x] ++ l) at 1 ]; reflexivity.
Qed.

(** C5 (the code departs from the claim).  With a video that loads and an
    empty segment list and no image, the function reports that no clips were
    processed and returns at line 180 without having closed the source
    clip: its trace holds no [Close] event at all. *)
Theorem source_clip_not_closed_without_clips :
  create_youtube_short example_world (with_clips (Some []) example_args) =
  (trace announce ++
   [Stdout "[INFO] Loaded video.";
    Stdout "[ERROR] No clips were processed or added."],
   Ok tt)
  /\ video_file example_world "in.mp4" = Some example_info
  /\ ~ In (Close example_clip)
          (trace (create_youtube_short example_world
                    (with_clips (Some []) example_args))).
Proof.
  split; [reflexivity|]. split; [reflexivity|].
  cbn. intros H.
  repeat (destruct H as [H|H]; [discriminate H|]). exact H.
Qed.




(** C9.  When [focal_points] is [None] or the empty list and at least one
    clip was produced, the segment loop used the default centre for every
    segment, but the final assembly raises and the exception escapes the
    function; with a positive aspect ratio the exception is the one of
    [focal_points[0]]: [TypeError] for [None], [IndexError] for the empty
    list. *)
Theorem missing_focal_points_raise (w : World) (a : Args) (info : VideoInfo)
  (segments : list (Q * Q)) (st : list Clip * Q) (final_clips : list Clip) :
  focal_points a = None \/ focal_points a = Some [] ->
  video_file w (input_video_path a) = Some info ->
  clips_of_interest a = Some segments ->
  outcome (segment_loop a (VideoFileClip (input_video_path a) info) 0
             segments ([], 0%Q)) = Ok st ->
  outcome (image_stage w a (fst st)) = Ok final_clips ->
  final_clips <> [] ->
  (forall idx : nat, segment_focal_point (focal_points a) idx = center) /\
  exists e : exn,
    outcome (final_assembly a final_clips) = Raise e /\
    outcome (create_youtube_short w a) = Raise e /\
    (0 < fst (target_aspect_ratio a) -> 0 < snd (target_aspect_ratio a) ->
     e = subscript_error (focal_points a)).
Proof.
  intros Hfocal Hload Hsegs Hloop Himage Hne.
  split.
  { intros idx. destruct Hfocal as [-> | ->]; reflexivity. }
  assert (Hfinal : outcome (final_assembly a final_clips) =
                   match crop_dims (size (Concatenate final_clips))
                           (target_aspect_ratio a) with
                   | Ok _ => Raise (subscript_error (focal_points a))
                   | Raise e => Raise e
                   end).
  { unfold final_assembly. rewrite outcome_print, outcome_lift.
    destruct (crop_dims _ _) as [dims|e]; [|reflexivity].
    rewrite outcome_lift. destruct Hfocal as [-> | ->]; reflexivity. }
  assert (Hrun : outcome (create_youtube_short w a) =
                 match outcome (final_assembly a final_clips) with
                 | Ok _ => Ok tt
                 | Raise e => Raise e
                 end).
  { rewrite create_youtube_short_outcome, Hload, Hsegs.
    cbn [iterate]. cbv zeta. rewrite Hloop, Himage.
    destruct final_clips as [|c cs]; [contradiction|]. reflexivity. }
  rewrite Hrun, Hfinal.
  destruct (crop_dims _ _) as [dims|e] eqn:D.
  - eexists. repeat split.
  - exists e. repeat split. intros Hw Hh. exfalso.
    destruct (target_aspect_ratio a) as [rw rh].
    destruct (size (Concatenate final_clips)) as [W H].
    rewrite crop_dims_pos in D by assumption. discriminate.
Qed.

Lemma missing_focal_points_raise_witness :
  (forall idx : nat,
     segment_focal_point (focal_points no_focal_args) idx = center) /\
  exists e : exn,
    outcome (final_assembly no_focal_args [no_focal_clip]) = Raise e /\
    outcome (create_youtube_short example_world no_focal_args) = Raise e /\
    (0 < fst (target_aspect_ratio no_focal_args) ->
     0 < snd (target_aspect_ratio no_focal_args) ->
     e = subscript_error (focal_points no_focal_args)).
Proof.
  apply (missing_focal_points_raise example_world no_focal_args
           example_info [(10, 15)%Q] ([no_focal_clip], (0 + 5 / 2)%Q)
           [no_focal_clip]).
  - left. reflexivity.
  - reflexivity.
  - reflexivity.
  - vm_compute. reflexivity.
  - vm_compute. reflexivity.
  - discriminate.
Defined.

(** C10.  When the video loads and [clips_of_interest] is left at its
    default [None], iterating it raises [TypeError] right after the load
    message: the exception escapes, and the "No clips were processed"
    report is never printed. *)
Theorem missing_segments_raise (w : World) (a : Args) (info : VideoInfo) :
  video_file w (input_video_path a) = Some info ->
  clips_of_interest a = None ->
  create_youtube_short w a =
  (trace announce ++ [Stdout "[INFO] Loaded video."], Raise TypeError).
Proof.
  intros Hload Hsegs. unfold create_youtube_short.
  rewrite Hload, Hsegs. reflexivity.
Qed.

Lemma missing_segments_raise_witness :
  create_youtube_short example_world (with_clips None example_args) =
  (trace announce ++ [Stdout "[INFO] Loaded video."], Raise TypeError).
Proof.
  apply (missing_segments_raise example_world
           (with_clips None example_args) example_info);
    reflexivity.
Defined.

(** * Further properties of the crop-box geometry *)

(** X1.  When the centred box fits in the frame it is not moved: along
    each axis the corner lies within one pixel of the focal pixel minus half
    the box, so the focal pixel is the centre of the box to within a pixel,
    whichever way the arithmetic rounds. *)
Theorem crop_box_centred_on_focal_point (W H rw rh : Z) (fx fy : Q)
  (b : CropBox) :
  0 < W -> 0 < H -> 0 < rw -> 0 < rh ->
  crop_box (W, H) (rw, rh) (fx, fy) = Ok b ->
  ((inject_Z (box_width b) / 2 <= inject_Z W * fx)%Q ->
   (inject_Z W * fx <= inject_Z W - inject_Z (box_width b) / 2)%Q ->
   (inject_Z (box_x1 b) - 1
    <= inject_Z W * fx - inject_Z (box_width b) / 2
    <= inject_Z (box_x1 b) + 1)%Q) /\
  ((inject_Z (box_height b) / 2 <= inject_Z H * fy)%Q ->
   (inject_Z H * fy <= inject_Z H - inject_Z (box_height b) / 2)%Q ->
   (inject_Z (box_y1 b) - 1
    <= inject_Z H * fy - inject_Z (box_height b) / 2
    <= inject_Z (box_y1 b) + 1)%Q).
Proof.
  intros HW HH Hrw Hrh Hb.
  destruct (crop_box_placement W H rw rh fx fy b HW HH Hrw Hrh Hb)
    as (_ & _ & _ & _ & _ & _ & _ & _ & _ & Hx & Hy).
  split; assumption.
Qed.

Lemma crop_box_centred_on_focal_point_witness :
  (inject_Z 272 - 1 <= inject_Z 1920 * (3 # 10) - inject_Z 607 / 2
   <= inject_Z 272 + 1)%Q /\
  (inject_Z 0 - 1 <= inject_Z 1080 * (1 # 2) - inject_Z 1080 / 2
   <= inject_Z 0 + 1)%Q.
Proof.
  destruct (crop_box_centred_on_focal_point 1920 1080 9 16 (3 # 10) (1 # 2)
              (mkCropBox 272 0 607 1080)
              eq_refl eq_refl eq_refl eq_refl eq_refl) as [Hx Hy].
  split.
  - apply Hx; vm_compute; discriminate.
  - apply Hy; vm_compute; discriminate.
Defined.

(** X2.  A focal ratio at or beyond an edge of [[0, 1]] is accepted and pins the
    box to that edge of the frame. *)
Theorem crop_box_pinned_to_edges (W H rw rh : Z) (fx fy : Q) (b : CropBox) :
  0 < W -> 0 < H -> 0 < rw -> 0 < rh ->
  crop_box (W, H) (rw, rh) (fx, fy) = Ok b ->
  ((fx <= 0)%Q -> box_x1 b = 0) /\
  ((1 <= fx)%Q -> box_x1 b + box_width b = W) /\
  ((fy <= 0)%Q -> box_y1 b = 0) /\
  ((1 <= fy)%Q -> box_y1 b + box_height b = H).
Proof.
  intros HW HH Hrw Hrh Hb.
  destruct (crop_box_inv W H rw rh (fx, fy) b HW HH Hrw Hrh Hb)
    as (Bw & Bh & _ & Ex & Ey). cbn [fst snd] in Ex, Ey.
  assert (PW := inject_Z_pos W HW). assert (PH := inject_Z_pos H HH).
  repeat split; intros Hf.
  - rewrite Ex. apply crop_corner_left; [assumption|]. nra.
  - rewrite Ex at 1. rewrite crop_corner_right; [lia|assumption|]. nra.
  - rewrite Ey. apply crop_corner_left; [assumption|]. nra.
  - rewrite Ey at 1. rewrite crop_corner_right; [lia|assumption|]. nra.
Qed.

Lemma crop_box_pinned_to_edges_witness :
  box_x1 (mkCropBox 1313 0 607 1080) + box_width (mkCropBox 1313 0 607 1080)
  = 1920 /\
  box_y1 (mkCropBox 1313 0 607 1080) = 0.
Proof.
  destruct (crop_box_pinned_to_edges 1920 1080 9 16 (3 # 2) (-1 # 4)
              (mkCropBox 1313 0 607 1080)
              eq_refl eq_refl eq_refl eq_refl eq_refl)
    as (_ & Hright & Htop & _).
  split.
  - apply Hright. vm_compute. discriminate.
  - apply Htop. vm_compute. discriminate.
Defined.

(** X3.  The size of the box does not depend on the focal point, and moving the
    focal point right or down never moves the box left or up. *)
Theorem crop_box_monotone (W H rw rh : Z) (fx fy fx' fy' : Q)
  (b b' : CropBox) :
  0 < W -> 0 < H -> 0 < rw -> 0 < rh ->
  crop_box (W, H) (rw, rh) (fx, fy) = Ok b ->
  crop_box (W, H) (rw, rh) (fx', fy') = Ok b' ->
  box_width b = box_width b' /\ box_height b = box_height b' /\
  ((fx <= fx')%Q -> box_x1 b <= box_x1 b') /\
  ((fy <= fy')%Q -> box_y1 b <= box_y1 b').
Proof.
  intros HW HH Hrw Hrh Hb Hb'.
  destruct (crop_box_inv W H rw rh (fx, fy) b HW HH Hrw Hrh Hb)
    as (_ & _ & D & Ex & Ey).
  destruct (crop_box_inv W H rw rh (fx', fy') b' HW HH Hrw Hrh Hb')
    as (_ & _ & D' & Ex' & Ey').
  rewrite D in D'. injection D' as Ew Eh. cbn [fst snd] in *.
  assert (PW := inject_Z_pos W HW). assert (PH := inject_Z_pos H HH).
  repeat split; try assumption; intros Hf.
  - rewrite Ex, Ex', Ew. apply crop_corner_mono. nra.
  - rewrite Ey, Ey', Eh. apply crop_corner_mono. nra.
Qed.

Lemma crop_box_monotone_witness :
  box_width (mkCropBox 272 0 607 1080) = box_width (mkCropBox 1040 0 607 1080)
  /\ box_x1 (mkCropBox 272 0 607 1080) <= box_x1 (mkCropBox 1040 0 607 1080).
Proof.
  destruct (crop_box_monotone 1920 1080 9 16 (3 # 10) (1 # 2) (7 # 10) (1 # 2)
              (mkCropBox 272 0 607 1080) (mkCropBox 1040 0 607 1080)
              eq_refl eq_refl eq_refl eq_refl eq_refl eq_refl)
    as (Hw & _ & Hx & _).
  split; [exact Hw|]. apply Hx. vm_compute. discriminate.
Defined.

(** * Further properties of the segment loop *)



Section WithinBudget.

Variable a : Args.
Variable original_clip : Clip.
Hypothesis ratio_w : 0 < fst (target_aspect_ratio a).
Hypothesis ratio_h : 0 < snd (target_aspect_ratio a).
Hypothesis speed_pos : (0 < speed_multiplier a)%Q.


End WithinBudget.

(** X5.  Every clip the loop makes of a segment is the sub-range [start, end] of
    the source, sped up, cropped to the box computed from the source frame
    and the focal point numbered like the segment (the centre when the list
    is absent or too short), and resized unless the crop already has the
    output resolution; it has the output resolution and lasts
    [(end - start) / speed_multiplier]. *)
Theorem segment_clip_shape (a : Args) (original_clip : Clip) (idx : nat)
  (start_sec end_sec : Q) (c : Clip) :
  prepared a original_clip idx (start_sec, end_sec) c ->
  exists box : CropBox,
    crop_box (size original_clip) (target_aspect_ratio a)
      (nth idx (match focal_points a with Some fps => fps | None => [] end)
           center) = Ok box /\
    (c = Crop (Speedx (Subclip original_clip start_sec end_sec)
                 (speed_multiplier a)) box \/
     c = Resize (Crop (Speedx (Subclip original_clip start_sec end_sec)
                         (speed_multiplier a)) box)
           (output_resolution a)) /\
    size c = output_resolution a /\
    duration c = ((end_sec - start_sec) / speed_multiplier a)%Q.
Proof.
  intros P.
  destruct (prepared_inv a original_clip idx (start_sec, end_sec) c P)
    as (box & Hbox & Hshape & Hsize).
  exists box. repeat split; try assumption.
  exact (prepared_duration a original_clip idx (start_sec, end_sec) c P).
Qed.

Lemma segment_clip_shape_witness :
  exists box : CropBox,
    crop_box (size example_clip) (target_aspect_ratio no_focal_args)
      (nth 0 (match focal_points no_focal_args with
              | Some fps => fps
              | None => []
              end) center) = Ok box /\
    (no_focal_clip = Crop (Speedx (Subclip example_clip 10 15)
                             (speed_multiplier no_focal_args)) box \/
     no_focal_clip = Resize (Crop (Speedx (Subclip example_clip 10 15)
                                     (speed_multiplier no_focal_args)) box)
                       (output_resolution no_focal_args)) /\
    size no_focal_clip = output_resolution no_focal_args /\
    duration no_focal_clip = ((15 - 10) / speed_multiplier no_focal_args)%Q.
Proof.
  apply (segment_clip_shape no_focal_args example_clip 0 10 15 no_focal_clip).
  vm_compute. reflexivity.
Defined.

(** X6.  Whatever the segments, when the budget is not negative and the loop
    returns, the accumulated duration is the total duration of the clips
    kept and does not exceed [max_duration_sec]; every clip kept has the
    output resolution. *)
Theorem segment_loop_respects_budget (a : Args) (original_clip : Clip)
  (segments : list (Q * Q)) (final_clips : list Clip)
  (current_duration : Q) :
  (0 <= max_duration_sec a)%Q ->
  outcome (segment_loop a original_clip 0 segments ([], 0%Q))
  = Ok (final_clips, current_duration) ->
  (current_duration == duration (Concatenate final_clips))%Q /\
  (duration (Concatenate final_clips) <= max_duration_sec a)%Q /\
  (List.length final_clips <= List.length segments)%nat /\
  Forall (fun c => size c = output_resolution a) final_clips.
Proof.
  intros Hmax Hloop.
  destruct (segment_loop_shape a original_clip segments _ _ _ _ _ Hloop)
    as (k & full & tail & Hk & Hc & Hp & Hm & Hsum & Hshape).
  cbn [app] in Hc. specialize (Hm Hmax). subst final_clips.
  cbn [duration]. repeat split.
  - rewrite Hsum. ring.
  - rewrite Hsum in Hm. lra.
  - assert (Hfull : List.length full = k).
    { unfold prepared_prefix in Hp. apply Forall2_length in Hp.
      rewrite length_combine, length_seq, length_firstn in Hp. lia. }
    rewrite length_app, Hfull.
    destruct Hshape as [(-> & _) | (Hlt & c & trim & _ & -> & _)];
      cbn [List.length]; lia.
  - apply Forall_app. split.
    + unfold prepared_prefix in Hp. clear - Hp.
      induction Hp as [|[i seg] c l l' Hc _ IH]; constructor; [|exact IH].
      destruct (prepared_inv a original_clip i seg c Hc) as (_ & _ & _ & E).
      exact E.
    + destruct Hshape as [(-> & _) | (_ & c & trim & P & -> & _)];
        constructor; [|constructor].
      destruct (prepared_inv a original_clip _ _ c P) as (_ & _ & _ & E).
      exact E.
Qed.

Lemma segment_loop_respects_budget_witness :
  (snd example_state == duration (Concatenate (fst example_state)))%Q /\
  (duration (Concatenate (fst example_state)) <= 4)%Q /\
  (List.length (fst example_state) <= 3)%nat /\
  Forall (fun c => size c = (1080, 1920)) (fst example_state).
Proof.
  apply (segment_loop_respects_budget example_args example_clip
           [(10, 15); (20, 25); (30, 35)]%Q
           (fst example_state) (snd example_state)).
  - vm_compute. discriminate.
  - vm_compute. reflexivity.
Defined.

(** X7.  With a budget of zero or less no segment is processed, whatever the
    segments and the other arguments; when no image is given the function
    then reports that there are no clips and returns, writing and closing
    nothing. *)
Theorem empty_budget_keeps_nothing (w : World) (a : Args) (info : VideoInfo)
  (segments : list (Q * Q)) :
  (max_duration_sec a <= 0)%Q ->
  video_file w (input_video_path a) = Some info ->
  clips_of_interest a = Some segments ->
  nonempty_path (image_path a) = None ->
  outcome (segment_loop a (VideoFileClip (input_video_path a) info) 0
             segments ([], 0%Q)) = Ok ([], 0%Q) /\
  create_youtube_short w a =
  (trace announce ++
   Stdout "[INFO] Loaded video." ::
   match segments with
   | [] => []
   | _ :: _ =>
       [Stdout "[WARN] Max duration reached, skipping remaining clips."]
   end ++
   [Stdout "[ERROR] No clips were processed or added."],
   Ok tt).
Proof.
  intros Hmax Hload Hsegs Himage.
  assert (G : Py.ge 0 (max_duration_sec a) = true) by (apply ge_true; lra).
  split.
  - apply segment_loop_break. exact G.
  - unfold create_youtube_short, image_stage.
    rewrite Hload, Hsegs, Himage.
    destruct segments as [|segment rest]; [reflexivity|].
    unfold bind at 3. cbn [announce iterate lift bind print emit app].
    cbn [segment_loop]. rewrite G. reflexivity.
Qed.

Lemma empty_budget_keeps_nothing_witness :
  outcome (segment_loop zero_budget_args example_clip 0 [(10, 15)%Q]
             ([], 0%Q)) = Ok ([], 0%Q) /\
  create_youtube_short example_world zero_budget_args =
  (trace announce ++
   [Stdout "[INFO] Loaded video.";
    Stdout "[WARN] Max duration reached, skipping remaining clips.";
    Stdout "[ERROR] No clips were processed or added."],
   Ok tt).
Proof.
  apply (empty_budget_keeps_nothing example_world zero_budget_args
           example_info [(10, 15)%Q]).
  - vm_compute. discriminate.
  - reflexivity.
  - reflexivity.
  - reflexivity.
Defined.

(** A truncation asks for less than the clip lasts. *)
Lemma segment_loop_trim_bound (a : Args) (original_clip : Clip)
  (segments : list (Q * Q)) :
  forall (idx : nat) (clips0 : list Clip) (cur0 : Q) (clips : list Clip)
         (cur : Q),
  outcome (segment_loop a original_clip idx segments (clips0, cur0))
  = Ok (clips, cur) ->
  exists added : list Clip,
    clips = clips0 ++ added /\
    Forall (fun kept => forall (c : Clip) (trim : Q),
              kept = Subclip c 0 trim -> (trim < duration c)%Q) added.
Proof.
  induction segments as [|segment rest IH]; intros idx clips0 cur0 clips cur.
  - cbn [segment_loop ret outcome snd]. intros [= <- <-].
    exists []. split; [symmetry; apply app_nil_r | constructor].
  - cbn [segment_loop]. destruct (Py.ge cur0 (max_duration_sec a)) eqn:G.
    + rewrite outcome_print. cbn [ret outcome snd]. intros [= <- <-].
      exists []. split; [symmetry; apply app_nil_r | constructor].
    + apply ge_false in G. rewrite outcome_bind.
      destruct (outcome (prepare_segment a original_clip idx segment))
        as [c|e] eqn:P; [|discriminate].
      destruct (Py.gt (cur0 + duration c) (max_duration_sec a)) eqn:T.
      * apply gt_true in T. rewrite outcome_print, outcome_lift.
        rewrite (trim_within a) by assumption.
        destruct (Py.le _ 0) eqn:L.
        { apply Qle_bool_iff in L. cbn [duration] in L. lra. }
        rewrite outcome_print, segment_loop_break
          by (apply ge_true; cbn [snd duration]; lra).
        intros [= <- <-]. eexists. split; [reflexivity|].
        constructor; [|constructor].
        intros c' trim [= <- <-]. lra.
      * rewrite outcome_print. intros R.
        destruct (IH _ _ _ _ _ R) as (added & Hc & Hadded).
        exists (c :: added). split.
        -- rewrite Hc, <- app_assoc. reflexivity.
        -- constructor; [|exact Hadded].
           intros c' trim E.
           destruct (prepared_not_subclip a original_clip idx segment c c'
                       0 trim P E).
Qed.

(** X8.  Only the last clip kept can be a truncation, and a truncation is
    strictly shorter than the clip it cuts: when the loop keeps
    [subclip(0, trim)] of a clip, that clip is the one made of the segment
    that follows the segments kept whole, [0 < trim < duration], the
    truncated clip ends the list, and the budget is used up exactly. *)
Theorem truncated_clip_is_last_and_shorter (a : Args) (original_clip : Clip)
  (segments : list (Q * Q)) (final_clips : list Clip)
  (current_duration : Q) (c : Clip) (trim : Q) :
  outcome (segment_loop a original_clip 0 segments ([], 0%Q))
  = Ok (final_clips, current_duration) ->
  In (Subclip c 0 trim) final_clips ->
  exists (k : nat) (full : list Clip),
    final_clips = full ++ [Subclip c 0 trim] /\
    prepared_prefix a original_clip 0 k segments full /\
    (k < List.length segments)%nat /\
    prepared a original_clip k (nth k segments (0, 0)%Q) c /\
    (0 < trim)%Q /\ (trim < duration c)%Q /\
    (current_duration == max_duration_sec a)%Q.
Proof.
  intros Hloop Hin.
  destruct (segment_loop_trim_bound a original_clip segments _ _ _ _ _ Hloop)
    as (added & Hadded & Hbound).
  cbn [app] in Hadded. subst added.
  rewrite Forall_forall in Hbound.
  assert (Hshort := Hbound _ Hin c trim eq_refl).
  destruct (segment_loop_shape a original_clip segments _ _ _ _ _ Hloop)
    as (k & full & tail & _ & Hc & Hp & _ & _ & Hshape).
  cbn [app] in Hc. subst final_clips.
  apply in_app_or in Hin. destruct Hin as [Hin|Hin].
  { exfalso. unfold prepared_prefix in Hp. clear - Hp Hin.
    induction Hp as [|[i seg] x l l' Hx _ IH]; [destruct Hin|].
    destruct Hin as [E|Hin]; [|exact (IH Hin)].
    exact (prepared_not_subclip a original_clip i seg x c 0 trim Hx E). }
  destruct Hshape
    as [(-> & _) | (Hlt & c' & trim' & P & -> & Hpos & _ & Hcur)];
    [destruct Hin|].
  destruct Hin as [[= -> ->]|[]].
  exists k, full. repeat split; assumption.
Qed.

Lemma truncated_clip_is_last_and_shorter_witness :
  exists (k : nat) (full : list Clip),
    fst example_state = full ++ [Subclip second_example_clip 0 (3 # 2)] /\
    prepared_prefix example_args example_clip 0 k
      [(10, 15); (20, 25); (30, 35)]%Q full /\
    (k < 3)%nat /\
    prepared example_args example_clip k
      (nth k [(10, 15); (20, 25); (30, 35)]%Q (0, 0)%Q)
      second_example_clip /\
    (0 < 3 # 2)%Q /\
    (3 # 2 < duration second_example_clip)%Q /\
    (snd example_state == 4)%Q.
Proof.
  apply (truncated_clip_is_last_and_shorter example_args example_clip
           [(10, 15); (20, 25); (30, 35)]%Q
           (fst example_state) (snd example_state)).
  - vm_compute. reflexivity.
  - vm_compute. right. left. reflexivity.
Defined.

(** * Further properties of the image slides *)

Lemma int_mul_div (a b c : Z) :
  0 < c ->
  Py.int (inject_Z a * (inject_Z b / inject_Z c))%Q = Z.quot (a * b) c.
Proof.
  intros Hc. rewrite <- int_div by assumption. apply int_Qeq.
  rewrite inject_Z_mult. field.
  intros E. apply inject_Z_pos in Hc. rewrite E in Hc.
  exact (Qlt_irrefl 0 Hc).
Qed.

(** A landscape image is scaled to the output height. *)
Lemma scaled_size_landscape (img_w img_h out_w out_h : Z) :
  img_w > img_h -> 0 < img_h ->
  scaled_size (img_w, img_h) (out_w, out_h)
  = Ok (Z.quot (img_w * out_h) img_h, out_h).
Proof.
  intros Hl Hh. unfold scaled_size.
  destruct (Z.gtb_spec img_w img_h); [|lia].
  rewrite truediv_pos by assumption. cbn [rbind].
  rewrite int_mul_div by assumption. reflexivity.
Qed.

(** Any other image is scaled to the output width. *)
Lemma scaled_size_portrait (img_w img_h out_w out_h : Z) :
  img_w <= img_h -> 0 < img_w ->
  scaled_size (img_w, img_h) (out_w, out_h)
  = Ok (out_w, Z.quot (img_h * out_w) img_w).
Proof.
  intros Hl Hw. unfold scaled_size.
  destruct (Z.gtb_spec img_w img_h); [lia|].
  rewrite truediv_pos by assumption. cbn [rbind].
  rewrite int_mul_div by assumption. reflexivity.
Qed.

(** The image stage on an existing image: four parts, numbered 0 to 3. *)
Lemma image_stage_existing (w : World) (a : Args) (path : string)
  (new_size : Z * Z) (final_clips : list Clip) :
  image_path a = Some path -> path <> EmptyString ->
  path_exists w path = true ->
  scaled_size (auto_orient_image w path) (output_resolution a) = Ok new_size ->
  outcome (image_stage w a final_clips) =
  Ok (final_clips ++
      map (image_part (auto_orient_image w path) new_size
             (output_resolution a) num_parts) [0; 1; 2; 3]).
Proof.
  intros Hp Hne He Hs. apply (nonempty_path_some _ _ Hp) in Hne.
  unfold image_stage. rewrite Hne, He, Hs.
  change (Z.to_nat num_parts) with 4%nat.
  cbn [image_parts bind lift print emit ret outcome snd app map].
  repeat rewrite <- app_assoc. reflexivity.
Qed.

(** X9.  For an image that is not wider than high the four slides pan
    vertically: they are cropped at the horizontal offset [0] and at the
    vertical offsets [0], [int(max_offset / 3)], [int(2 * max_offset / 3)]
    and [max_offset], where [max_offset] is the scaled image height minus
    the output height. *)
Theorem portrait_pan_offsets (w : World) (a : Args) (path : string)
  (final_clips : list Clip) (img_w img_h out_w out_h new_w new_h : Z) :
  image_path a = Some path -> path <> EmptyString ->
  path_exists w path = true ->
  auto_orient_image w path = (img_w, img_h) ->
  output_resolution a = (out_w, out_h) ->
  img_w <= img_h ->
  scaled_size (img_w, img_h) (out_w, out_h) = Ok (new_w, new_h) ->
  outcome (image_stage w a final_clips) =
  Ok (final_clips ++
      map (fun y_crop =>
             slide_at (img_w, img_h) (new_w, new_h) (out_w, out_h) 0 y_crop)
          [0;
           Z.quot (new_h - out_h) 3;
           Z.quot (2 * (new_h - out_h)) 3;
           new_h - out_h]).
Proof.
  intros Hp Hne He Hi Ho Hl Hs.
  rewrite (image_stage_existing w a path (new_w, new_h) final_clips Hp Hne He)
    by (rewrite Hi, Ho; exact Hs).
  rewrite Hi, Ho. f_equal. f_equal.
  assert (P : forall i, image_part (img_w, img_h) (new_w, new_h)
                          (out_w, out_h) num_parts i
                        = slide_at (img_w, img_h) (new_w, new_h)
                            (out_w, out_h) 0
                            (Z.quot (i * (new_h - out_h)) 3)).
  { intros i. unfold image_part, part_crop.
    destruct (Z.gtb_spec img_w img_h); [lia|].
    rewrite pan_offset_4. reflexivity. }
  cbn [map]. rewrite !P.
  rewrite Z.mul_0_l, Z.mul_1_l, (Z.mul_comm 3 (new_h - out_h)).
  rewrite Z.quot_mul by discriminate. reflexivity.
Qed.

Lemma portrait_pan_offsets_witness :
  outcome (image_stage tall_image_world photo_args [])
  = Ok (map (fun y_crop =>
               slide_at (1000, 4000) (1080, 4320) (1080, 1920) 0 y_crop)
            [0; 800; 1600; 2400]).
Proof.
  apply (portrait_pan_offsets tall_image_world photo_args "photo.jpg" []
           1000 4000 1080 1920 1080 4320).
  - reflexivity.
  - discriminate.
  - reflexivity.
  - reflexivity.
  - reflexivity.
  - vm_compute. discriminate.
  - reflexivity.
Defined.

Lemma pan_offset_4_bounds (i max_offset : Z) :
  0 <= i <= 3 -> 0 <= max_offset ->
  0 <= pan_offset num_parts i max_offset <= max_offset.
Proof.
  intros Hi Hm. rewrite pan_offset_4. split.
  - apply Z.quot_pos; nia.
  - rewrite <- (Z.quot_mul max_offset 3) at 2 by discriminate.
    apply Z.quot_le_mono; nia.
Qed.

(** X10.  A landscape image that is, in proportion, wider than the output
    is scaled to the output height and to a width of at least the output
    width; and for every scaled width of at least the output width each
    slide's crop window lies inside the scaled image: the window starts at
    a horizontal offset between 0 and [new_w - out_w], at the top, and the
    offsets do not decrease from one slide to the next. *)
Theorem landscape_slides_inside_image (img_w img_h out_w out_h : Z) :
  img_w > img_h -> 0 < img_h ->
  out_w * img_h < img_w * out_h ->
  (exists new_w : Z,
     scaled_size (img_w, img_h) (out_w, out_h) = Ok (new_w, out_h) /\
     out_w <= new_w) /\
  forall new_w i : Z, out_w <= new_w -> 0 <= i <= 3 ->
    let crop := part_crop (img_w, img_h) (new_w, out_h) (out_w, out_h)
                  num_parts i in
    0 <= fst crop /\ fst crop + out_w <= new_w /\ snd crop = 0 /\
    (i < 3 ->
     fst crop <= fst (part_crop (img_w, img_h) (new_w, out_h)
                        (out_w, out_h) num_parts (i + 1))).
Proof.
  intros Hl Hh Hcover. split.
  - exists (Z.quot (img_w * out_h) img_h).
    split; [apply scaled_size_landscape; assumption|].
    rewrite <- (Z.quot_mul out_w img_h) by lia.
    apply Z.quot_le_mono; lia.
  - intros new_w i Hnew Hi. unfold part_crop.
    destruct (Z.gtb_spec img_w img_h); [|lia]. cbn [fst snd].
    destruct (pan_offset_4_bounds i (new_w - out_w) Hi) as [B0 B1]; [lia|].
    repeat split; try lia.
    intros Hlt. rewrite !pan_offset_4. apply Z.quot_le_mono; nia.
Qed.

Lemma landscape_slides_inside_image_witness :
  (exists new_w : Z,
     scaled_size (4000, 3000) (1080, 1920) = Ok (new_w, 1920) /\
     1080 <= new_w) /\
  forall new_w i : Z, 1080 <= new_w -> 0 <= i <= 3 ->
    let crop := part_crop (4000, 3000) (new_w, 1920) (1080, 1920)
                  num_parts i in
    0 <= fst crop /\ fst crop + 1080 <= new_w /\ snd crop = 0 /\
    (i < 3 ->
     fst crop <= fst (part_crop (4000, 3000) (new_w, 1920)
                        (1080, 1920) num_parts (i + 1))).
Proof.
  apply (landscape_slides_inside_image 4000 3000 1080 1920).
  - reflexivity.
  - reflexivity.
  - reflexivity.
Defined.

(** X11.  An image that is not wider than high is scaled to the output width
    whatever its height; when it is, in proportion, less tall than the
    output, the scaled image is lower than the output, [max_offset] is
    negative, and the last slide is cropped at the negative vertical offset
    [new_h - out_h]: its crop window starts above the image. *)
Theorem short_image_slides_leave_image (img_w img_h out_w out_h : Z) :
  img_w <= img_h -> 0 < img_w -> 0 <= out_w ->
  img_h * out_w < img_w * out_h ->
  exists new_h : Z,
    scaled_size (img_w, img_h) (out_w, out_h) = Ok (out_w, new_h) /\
    new_h < out_h /\
    part_crop (img_w, img_h) (out_w, new_h) (out_w, out_h) num_parts 3
    = (0, new_h - out_h).
Proof.
  intros Hl Hw Ho Hshort.
  exists (Z.quot (img_h * out_w) img_w).
  split; [apply scaled_size_portrait; assumption|].
  assert (Hnew : Z.quot (img_h * out_w) img_w < out_h).
  { apply Z.quot_lt_upper_bound; nia. }
  split; [exact Hnew|].
  unfold part_crop. destruct (Z.gtb_spec img_w img_h); [lia|].
  rewrite pan_offset_4, Z.mul_comm, Z.quot_mul by discriminate. reflexivity.
Qed.

Lemma short_image_slides_leave_image_witness :
  exists new_h : Z,
    scaled_size (3000, 4000) (1080, 1920) = Ok (1080, new_h) /\
    new_h < 1920 /\
    part_crop (3000, 4000) (1080, new_h) (1080, 1920) num_parts 3
    = (0, new_h - 1920).
Proof.
  apply (short_image_slides_leave_image 3000 4000 1080 1920).
  - discriminate.
  - reflexivity.
  - discriminate.
  - reflexivity.
Defined.





(** X13.  EXIF orientation decides the pan axis: an image stored wider than
    high with orientation 6 or 8 is taken as higher than wide, scaled to
    exactly the output width and panned vertically; with any other
    orientation value, or none, it keeps its size, is scaled to exactly the
    output height and panned horizontally. *)
Theorem exif_orientation_decides_pan_axis (w : World) (path : string)
  (file_w file_h out_w out_h : Z) :
  image_file_size w path = (file_w, file_h) ->
  file_w > file_h -> 0 < file_h ->
  (exif_orientation w path = Some 6 \/ exif_orientation w path = Some 8 ->
   auto_orient_image w path = (file_h, file_w) /\
   (exists new_h : Z,
      scaled_size (auto_orient_image w path) (out_w, out_h)
      = Ok (out_w, new_h)) /\
   forall (new_size : Z * Z) (i : Z),
     fst (part_crop (auto_orient_image w path) new_size (out_w, out_h)
            num_parts i) = 0) /\
  (exif_orientation w path <> Some 6 -> exif_orientation w path <> Some 8 ->
   auto_orient_image w path = (file_w, file_h) /\
   (exists new_w : Z,
      scaled_size (auto_orient_image w path) (out_w, out_h)
      = Ok (new_w, out_h)) /\
   forall (new_size : Z * Z) (i : Z),
     snd (part_crop (auto_orient_image w path) new_size (out_w, out_h)
            num_parts i) = 0).
Proof.
  intros Hsize Hl Hh. split.
  - intros Hrot.
    assert (E : auto_orient_image w path = (file_h, file_w)).
    { unfold auto_orient_image. rewrite Hsize.
      destruct Hrot as [-> | ->]; reflexivity. }
    rewrite E. repeat split.
    + eexists. apply scaled_size_portrait; lia.
    + intros [new_w new_h] i. unfold part_crop.
      destruct (Z.gtb_spec file_h file_w); [lia|]. reflexivity.
  - intros H6 H8.
    assert (E : auto_orient_image w path = (file_w, file_h)).
    { unfold auto_orient_image. rewrite Hsize.
      destruct (exif_orientation w path) as [[|p|p]|]; try reflexivity.
      do 4 (try destruct p as [p|p|]); try reflexivity; congruence. }
    rewrite E. repeat split.
    + eexists. apply scaled_size_landscape; assumption.
    + intros [new_w new_h] i. unfold part_crop.
      destruct (Z.gtb_spec file_w file_h); [|lia]. reflexivity.
Qed.

Lemma exif_orientation_decides_pan_axis_witness :
  (auto_orient_image rotated_image_world "photo.jpg" = (3000, 4000) /\
   (exists new_h : Z,
      scaled_size (auto_orient_image rotated_image_world "photo.jpg")
        (1080, 1920) = Ok (1080, new_h)) /\
   forall (new_size : Z * Z) (i : Z),
     fst (part_crop (auto_orient_image rotated_image_world "photo.jpg")
            new_size (1080, 1920) num_parts i) = 0) /\
  (auto_orient_image example_world "photo.jpg" = (4000, 3000) /\
   (exists new_w : Z,
      scaled_size (auto_orient_image example_world "photo.jpg")
        (1080, 1920) = Ok (new_w, 1920)) /\
   forall (new_size : Z * Z) (i : Z),
     snd (part_crop (auto_orient_image example_world "photo.jpg")
            new_size (1080, 1920) num_parts i) = 0).
Proof.
  split.
  - apply (proj1 (exif_orientation_decides_pan_axis rotated_image_world
                    "photo.jpg" 4000 3000 1080 1920 eq_refl eq_refl eq_refl)).
    left. reflexivity.
  - apply (proj2 (exif_orientation_decides_pan_axis example_world
                    "photo.jpg" 4000 3000 1080 1920 eq_refl eq_refl eq_refl)).
    + discriminate.
    + discriminate.
Defined.

(** * Further properties of the final assembly *)







(** * What reaches the world *)

Section Events.

(** [P] holds of every console message. *)
Variable P : event -> Prop.
Hypothesis P_stdout : forall text : string, P (Stdout text).

Lemma events_bind {A B : Type} (m : M A) (k : A -> M B) :
  Forall P (trace m) ->
  (forall x, outcome m = Ok x -> Forall P (trace (k x))) ->
  Forall P (trace (bind m k)).
Proof.
  intros Hm Hk. rewrite trace_bind. apply Forall_app. split; [exact Hm|].
  destruct (outcome m) as [x|e]; [apply Hk; reflexivity | constructor].
Qed.

Lemma events_print {B : Type} (text : string) (k : unit -> M B) :
  Forall P (trace (k tt)) -> Forall P (trace (bind (print text) k)).
Proof.
  intros Hk. apply events_bind.
  - constructor; [apply P_stdout | constructor].
  - intros [] _. exact Hk.
Qed.

Lemma events_lift {A B : Type} (r : result A) (k : A -> M B) :
  (forall x, r = Ok x -> Forall P (trace (k x))) ->
  Forall P (trace (bind (lift r) k)).
Proof. intros Hk. apply events_bind; [constructor | exact Hk]. Qed.

Lemma events_ret {A : Type} (x : A) : Forall P (trace (ret x)).
Proof. constructor. Qed.

Lemma announce_events : Forall P (trace announce).
Proof. repeat (constructor; [apply P_stdout|]). constructor. Qed.

Lemma prepare_segment_events (a : Args) (original_clip : Clip) (idx : nat)
  (segment : Q * Q) :
  Forall P (trace (prepare_segment a original_clip idx segment)).
Proof.
  unfold prepare_segment. destruct segment as [start_sec end_sec].
  apply events_print, events_lift. intros sub_clip _.
  apply events_lift. intros sped _.
  apply events_print, events_print, events_lift. intros box _.
  apply events_print. destruct (negb _).
  - apply events_print, events_ret.
  - apply events_ret.
Qed.

Lemma segment_loop_events (a : Args) (original_clip : Clip)
  (segments : list (Q * Q)) :
  forall (idx : nat) (st : list Clip * Q),
  Forall P (trace (segment_loop a original_clip idx segments st)).
Proof.
  induction segments as [|segment rest IH]; intros idx [clips cur].
  - apply events_ret.
  - cbn [segment_loop]. destruct (Py.ge _ _).
    + apply events_print, events_ret.
    + apply events_bind; [apply prepare_segment_events|]. intros c _.
      destruct (Py.gt _ _).
      * apply events_print, events_lift. intros trimmed _.
        destruct (Py.le _ _); apply events_print, IH.
      * apply events_print, IH.
Qed.

Lemma image_parts_events (img_size new_size output_resolution : Z * Z)
  (parts : Z) (todo : nat) :
  forall (i : Z) (clips : list Clip),
  Forall P (trace (image_parts img_size new_size output_resolution parts i
                     todo clips)).
Proof.
  induction todo as [|todo IH]; intros i clips.
  - apply events_ret.
  - cbn [image_parts]. apply events_print, IH.
Qed.

(** The image stage saves the temporary image, and only when the image
    exists. *)
Lemma image_stage_events (w : World) (a : Args) (clips : list Clip) :
  (forall path : string,
     nonempty_path (image_path a) = Some path -> path_exists w path = true ->
     P (SaveImage temp_oriented_image)) ->
  Forall P (trace (image_stage w a clips)).
Proof.
  intros P_save. unfold image_stage.
  destruct (nonempty_path (image_path a)) as [path|].
  - destruct (path_exists w path) eqn:E.
    + apply events_print. apply events_bind.
      { constructor; [exact (P_save path eq_refl E) | constructor]. }
      intros [] _. apply events_lift. intros new_size _.
      apply events_bind; [apply image_parts_events|]. intros parts _.
      apply events_print, events_ret.
    + apply events_print, events_ret.
  - apply events_ret.
Qed.

Lemma final_assembly_events (a : Args) (final_clips : list Clip) :
  Forall P (trace (final_assembly a final_clips)).
Proof.
  unfold final_assembly. apply events_print, events_lift. intros dims _.
  apply events_lift. intros focal_point _.
  destruct (crop_origin _ _ _) as [x1 y1].
  apply events_print, events_print, events_ret.
Qed.

(** Either the run stops before the write step, or it reaches it. *)
Lemma create_youtube_short_cases (w : World) (a : Args) :
  (forall path : string,
     nonempty_path (image_path a) = Some path -> path_exists w path = true ->
     P (SaveImage temp_oriented_image)) ->
  Forall P (trace (create_youtube_short w a)) \/
  exists (info : VideoInfo) (final_clips : list Clip) (final_video : Clip)
         (pre : list event),
    video_file w (input_video_path a) = Some info /\
    final_clips <> [] /\
    outcome (final_assembly a final_clips) = Ok final_video /\
    Forall P pre /\
    outcome (create_youtube_short w a) = Ok tt /\
    trace (create_youtube_short w a) =
    pre ++ trace (write_and_release w a
                    (VideoFileClip (input_video_path a) info) final_clips
                    final_video).
Proof.
  intros P_save. assert (Ha := announce_events).
  rewrite create_youtube_short_trace, create_youtube_short_outcome.
  destruct (video_file w (input_video_path a)) as [info|].
  2: { left. apply Forall_app. split; [exact Ha|].
       constructor; [apply P_stdout | constructor]. }
  cbv zeta. destruct (iterate (clips_of_interest a)) as [segments|e].
  2: { left. apply Forall_app. split; [exact Ha|].
       constructor; [apply P_stdout | constructor]. }
  assert (Hl := segment_loop_events a
                  (VideoFileClip (input_video_path a) info) segments 0
                  ([], 0%Q)).
  destruct (outcome (segment_loop _ _ _ _ _)) as [st|e].
  2: { left. apply Forall_app. split; [exact Ha|].
       constructor; [apply P_stdout|]. rewrite app_nil_r. exact Hl. }
  assert (Hi := image_stage_events w a (fst st) P_save).
  destruct (outcome (image_stage w a (fst st))) as [[|c cs]|e].
  - left. apply Forall_app. split; [exact Ha|].
    constructor; [apply P_stdout|].
    apply Forall_app. split; [exact Hl|].
    apply Forall_app. split; [exact Hi|].
    constructor; [apply P_stdout | constructor].
  - assert (Hf := final_assembly_events a (c :: cs)).
    destruct (outcome (final_assembly a (c :: cs))) as [final_video|e] eqn:F.
    + right. exists info, (c :: cs), final_video.
      exists (trace announce ++
              Stdout "[INFO] Loaded video." ::
              trace (segment_loop a (VideoFileClip (input_video_path a) info)
                       0 segments ([], 0%Q)) ++
              trace (image_stage w a (fst st)) ++
              trace (final_assembly a (c :: cs))).
      repeat split; try assumption; try discriminate.
      * apply Forall_app. split; [exact Ha|].
        constructor; [apply P_stdout|].
        apply Forall_app. split; [exact Hl|].
        apply Forall_app. split; assumption.
      * rewrite <- !app_assoc. cbn [app]. rewrite <- !app_assoc.
        reflexivity.
    + left. apply Forall_app. split; [exact Ha|].
      constructor; [apply P_stdout|].
      apply Forall_app. split; [exact Hl|].
      apply Forall_app. split; [exact Hi|]. rewrite app_nil_r. exact Hf.
  - left. apply Forall_app. split; [exact Ha|].
    constructor; [apply P_stdout|].
    apply Forall_app. split; [exact Hl|]. rewrite app_nil_r. exact Hi.
Qed.

End Events.

(** X16.  The function writes at most the one file it was asked for: a video
    file is written only to [output_video_path], only when writing there
    succeeds, only in a run that returns normally, and with the frame rate
    of the source video. *)
Theorem writes_only_the_output_file (w : World) (a : Args) (path : string)
  (c : Clip) (rate : Q) :
  In (Wrote path c rate) (trace (create_youtube_short w a)) ->
  path = output_video_path a /\
  write_succeeds w path = true /\
  outcome (create_youtube_short w a) = Ok tt /\
  (exists info : VideoInfo,
     video_file w (input_video_path a) = Some info /\ rate = v_fps info) /\
  (exists final_clips : list Clip,
     final_clips <> [] /\ outcome (final_assembly a final_clips) = Ok c).
Proof.
  intros Hin.
  destruct (create_youtube_short_cases console_or_save (fun _ => I) w a
              (fun _ _ _ => I))
    as [Hq | (info & final_clips & final_video & pre & Hload & Hne & Hfinal
              & Hpre & Hout & Htrace)].
  { rewrite Forall_forall in Hq. destruct (Hq _ Hin). }
  rewrite Htrace, write_and_release_trace in Hin.
  apply in_app_or in Hin. destruct Hin as [Hin|Hin].
  { rewrite Forall_forall in Hpre. destruct (Hpre _ Hin). }
  apply in_app_or in Hin. destruct Hin as [Hin|Hin].
  - destruct (write_succeeds w (output_video_path a)) eqn:Hw.
    + destruct Hin as [Hin|[Hin|[]]]; [|discriminate].
      injection Hin as <- <- <-. repeat split; try assumption.
      * exists info. split; [assumption | reflexivity].
      * exists final_clips. split; assumption.
    + destruct Hin as [Hin|[]]. discriminate.
  - exfalso. destruct Hin as [Hin|Hin]; [discriminate|].
    apply in_app_or in Hin. destruct Hin as [Hin|[Hin|[]]]; [|discriminate].
    apply in_map_iff in Hin. destruct Hin as (x & Hx & _). discriminate.
Qed.

Lemma writes_only_the_output_file_witness :
  "out.mp4"%string = output_video_path example_args /\
  write_succeeds example_world "out.mp4" = true /\
  outcome (create_youtube_short example_world example_args) = Ok tt /\
  (exists info : VideoInfo,
     video_file example_world (input_video_path example_args) = Some info /\
     30%Q = v_fps info) /\
  (exists final_clips : list Clip,
     final_clips <> [] /\
     outcome (final_assembly example_args final_clips)
     = Ok (Crop (Concatenate (fst example_state))
             (mkCropBox 0 0 1080 1920))).
Proof.
  apply (writes_only_the_output_file example_world example_args "out.mp4"
           (Crop (Concatenate (fst example_state)) (mkCropBox 0 0 1080 1920))
           30%Q).
  vm_compute. repeat (first [left; reflexivity | right]).
Defined.

(** X17.  Clips are released together or not at all: a run either closes
    nothing and writes nothing, or it reaches the write step, returns
    normally, and ends by closing the source clip, then every listed clip in
    list order, then the final video, each once, after the write attempt has
    been reported; nothing is closed before that. *)
Theorem clips_released_together_or_not_at_all (w : World) (a : Args) :
  Forall console_or_save (trace (create_youtube_short w a)) \/
  exists (info : VideoInfo) (final_clips : list Clip) (final_video : Clip)
         (pre report : list event),
    video_file w (input_video_path a) = Some info /\
    outcome (final_assembly a final_clips) = Ok final_video /\
    Forall console_or_save pre /\
    report =
    (if write_succeeds w (output_video_path a)
     then [Wrote (output_video_path a) final_video (v_fps info);
           Stdout "YouTube Short successfully created"]
     else [Stdout "Error writing video file"]) /\
    outcome (create_youtube_short w a) = Ok tt /\
    trace (create_youtube_short w a) =
    pre ++ report ++
    Close (VideoFileClip (input_video_path a) info) ::
    map Close final_clips ++ [Close final_video].
Proof.
  destruct (create_youtube_short_cases console_or_save (fun _ => I) w a
              (fun _ _ _ => I))
    as [Hq | (info & final_clips & final_video & pre & Hload & Hne & Hfinal
              & Hpre & Hout & Htrace)]; [left; exact Hq|].
  right. exists info, final_clips, final_video, pre. eexists.
  repeat split; try eassumption.
  rewrite Htrace, write_and_release_trace. reflexivity.
Qed.




(** * The example run *)

(** The length the script gives to every segment. *)
Lemma equal_segments_done (max_duration_sec image_duration : Z)
  (clips : list (Z * Z)) :
  image_duration < max_duration_sec -> clips <> [] ->
  equal_segments max_duration_sec image_duration clips =
  Done (map (fun clip =>
               (inject_Z (fst clip),
                (inject_Z (fst clip)
                 + inject_Z (max_duration_sec - image_duration)
                   / inject_Z (Z.of_nat (List.length clips)))%Q))
            clips).
Proof.
  intros Hlt Hne. unfold equal_segments.
  destruct (Z.leb_spec (max_duration_sec - image_duration) 0); [lia|].
  rewrite truediv_pos; [reflexivity|].
  destruct clips; [contradiction | cbn [List.length]; lia].
Qed.

Lemma Qsum_equal_lengths (length_of : Q) (clips : list (Z * Z)) :
  (Qsum (map (fun segment : Q * Q => snd segment - fst segment)
           (map (fun clip : Z * Z =>
                   (inject_Z (fst clip), inject_Z (fst clip) + length_of))
                clips))
   == inject_Z (Z.of_nat (List.length clips)) * length_of)%Q.
Proof.
  induction clips as [|clip rest IH].
  - cbn. ring.
  - cbn [map List.length fst snd].
    match goal with
    | |- (Qsum (?x :: ?l) == _)%Q =>
        change (Qsum (x :: l)) with (x + Qsum l)%Q
    end.
    rewrite IH, Nat2Z.inj_succ. unfold Z.succ. rewrite inject_Z_plus. ring.
Qed.

(** X19.  The script refuses a budget that leaves no time for segments, and
    fails on an empty clip list, before it looks at any file. *)
Theorem script_rejects_empty_plans (w : World)
  (input_video output_short : string) (clips : list (Z * Z))
  (focal_points : list (Q * Q)) (image_path : string)
  (max_duration_sec image_duration : Z) :
  (max_duration_sec <= image_duration ->
   script w input_video output_short clips focal_points image_path
     max_duration_sec image_duration = ([], ValueError)) /\
  (image_duration < max_duration_sec -> clips = [] ->
   script w input_video output_short clips focal_points image_path
     max_duration_sec image_duration = ([], Uncaught ZeroDivisionError)).
Proof.
  split.
  - intros Hle. unfold script, equal_segments.
    destruct (Z.leb_spec (max_duration_sec - image_duration) 0); [|lia].
    reflexivity.
  - intros Hlt ->. unfold script, equal_segments.
    destruct (Z.leb_spec (max_duration_sec - image_duration) 0); [lia|].
    reflexivity.
Qed.

Lemma script_rejects_empty_plans_witness :
  script script_world "in.mp4" "out.mp4" timelapse_clips script_focal_points
    "photo.jpg" 5 5 = ([], ValueError) /\
  script script_world "in.mp4" "out.mp4" [] script_focal_points
    "photo.jpg" 20 5 = ([], Uncaught ZeroDivisionError).
Proof.
  split.
  - apply (proj1 (script_rejects_empty_plans script_world "in.mp4" "out.mp4"
                    timelapse_clips script_focal_points "photo.jpg" 5 5)).
    discriminate.
  - apply (proj2 (script_rejects_empty_plans script_world "in.mp4" "out.mp4"
                    [] script_focal_points "photo.jpg" 20 5)).
    + reflexivity.
    + reflexivity.
Defined.

(** X20.  For a non-empty clip list and a budget larger than the image time, the
    script's segments start where the listed clips start, ignore where they
    end, all have the length [(max_duration_sec - image_duration) / n], and
    together last exactly [max_duration_sec - image_duration]. *)
Theorem equal_segments_fill_available_time
  (max_duration_sec image_duration : Z) (clips : list (Z * Z)) :
  image_duration < max_duration_sec -> clips <> [] ->
  exists segments : list (Q * Q),
    equal_segments max_duration_sec image_duration clips = Done segments /\
    map fst segments = map (fun clip => inject_Z (fst clip)) clips /\
    Forall (fun segment =>
              (snd segment - fst segment
               == inject_Z (max_duration_sec - image_duration)
                  / inject_Z (Z.of_nat (List.length clips)))%Q) segments /\
    (Qsum (map (fun segment => snd segment - fst segment) segments)
     == inject_Z (max_duration_sec - image_duration))%Q.
Proof.
  intros Hlt Hne. eexists.
  split; [apply equal_segments_done; assumption|].
  split; [|split].
  - rewrite map_map. reflexivity.
  - rewrite Forall_map. apply Forall_forall. intros clip _. cbn [fst snd].
    ring.
  - rewrite Qsum_equal_lengths. field.
    intros E. assert (Hn : 0 < Z.of_nat (List.length clips))
      by (destruct clips; [contradiction | cbn [List.length]; lia]).
    apply inject_Z_pos in Hn. rewrite E in Hn. exact (Qlt_irrefl 0 Hn).
Qed.

Lemma equal_segments_fill_available_time_witness :
  exists segments : list (Q * Q),
    equal_segments 20 5 timelapse_clips = Done segments /\
    map fst segments = map (fun clip => inject_Z (fst clip)) timelapse_clips
    /\
    Forall (fun segment =>
              (snd segment - fst segment
               == inject_Z (20 - 5)
                  / inject_Z (Z.of_nat (List.length timelapse_clips)))%Q)
           segments /\
    (Qsum (map (fun segment => snd segment - fst segment) segments)
     == inject_Z (20 - 5))%Q.
Proof.
  apply (equal_segments_fill_available_time 20 5 timelapse_clips).
  - reflexivity.
  - discriminate.
Defined.



